(** * Cantonese vocabulary trainer: the review scheduling logic of [App.jsx]

    A shallow embedding of the React component [App] (src/src/App.jsx):
    the selection and ordering of the cards that are due, the proficiency
    update of a review, the request sent to the Apps Script backend and the
    component's state after each callback has run to completion. *)

From Stdlib Require Import ZArith List Sorted Permutation Lia.
From stdpp Require Import gmap strings list pretty.
Import ListNotations.

Local Open Scope Z_scope.

(** ** Host values *)

(** The time value of a JavaScript [Date]: milliseconds since the epoch, an
    integer.  [None] is the Invalid Date, whose time value is NaN. *)
Definition Date : Type := option Z.

(** A JavaScript Number as the code uses it here: the difference of two time
    values, [None] being NaN.  Time values are integers of magnitude at most
    8.64e15, so the sign of the rounded double difference is the sign of the
    exact one, and only the sign is ever looked at. *)
Definition Number : Type := option Z.

(** [a <= b] on two Dates: both are converted to their time values, and a
    comparison with NaN is false. *)
Definition Date_le (a b : Date) : bool :=
  match a, b with
  | Some x, Some y => x <=? y
  | _, _ => false
  end.

(** [a - b] on two Dates. *)
Definition Date_sub (a b : Date) : Number :=
  match a, b with
  | Some x, Some y => Some (x - y)
  | _, _ => None
  end.

(** ** Data model *)

(** One row of the sheet, as [getVocabs] returns it. *)
Record Card : Type := mkCard {
  ID : string;
  English : string;
  Cantonese : string;
  Jyutping : string;
  ProficiencyLevel : Z;
  NextReviewTime : string
}.

#[global] Instance Card_eq_dec : EqDecision Card.
Proof. solve_decision. Defined.

(** ** [Array.prototype.sort] *)

Section ArraySort.
Context {A : Type}.
Variable comparefn : A -> A -> Number.

(** The abstract operation SortCompare: a NaN from the comparator counts
    as [+0]. *)
Definition SortCompare (x y : A) : Z :=
  match comparefn x y with
  | Some v => v
  | None => 0
  end.

(** The sort is stable (ECMAScript 2019): elements that compare equal keep
    their order.  With a comparator that orders the elements consistently,
    as the one of the component does on the cards that passed the filter,
    this fixes the result, whatever algorithm the engine runs; here an
    element goes in front of the first element it does not compare greater
    than. *)
Fixpoint sort_insert (x : A) (l : list A) : list A :=
  match l with
  | [] => [x]
  | y :: l' =>
      if SortCompare x y <=? 0 then x :: y :: l' else y :: sort_insert x l'
  end.

Fixpoint Array_sort (l : list A) : list A :=
  match l with
  | [] => []
  | x :: l' => sort_insert x (Array_sort l')
  end.
End ArraySort.

(** ** The due queue (App.jsx, lines 35-43) *)

(** [new Date(s)] on a string: the date parser of the host. *)
Class DateHost : Type := { Date_parse : string -> Date }.

Section DueQueue.
Context `{DateHost}.

(** [new Date(card.NextReviewTime)] *)
Definition nextReview (card : Card) : Date :=
  Date_parse (NextReviewTime card).

(** The callback of [filter]: [nextReview <= now]. *)
Definition isDue (now : Z) (card : Card) : bool :=
  Date_le (nextReview card) (Some now).

(** The comparator of [sort]. *)
Definition byNextReviewTime (a b : Card) : Number :=
  Date_sub (nextReview a) (nextReview b).

(** [data.filter(...).sort(...)] *)
Definition dueCards (now : Z) (data : list Card) : list Card :=
  Array_sort byNextReviewTime (List.filter (isDue now) data).
End DueQueue.

(** ** The backend, as the component sees it *)

(** The two requests the component sends to the Apps Script web app, by
    their [action] parameter.  [nextReviewTime] is the instant whose ISO
    form goes into the URL. *)
Inductive Request : Type :=
| getVocabs
| updateVocab (id : string) (proficiencyLevel : Z) (nextReviewTime : Z).

(** [response.json()]: the parsed body, or the rejection of a body that is
    not JSON. *)
Inductive Body (A : Type) : Type :=
| BodyRejected (message : string)
| BodyJson (value : A).
Arguments BodyRejected {A} message.
Arguments BodyJson {A} value.

Record Response (A : Type) : Type := mkResponse {
  ok : bool;
  status : Z;
  json : Body A
}.
Arguments mkResponse {A} ok status json.
Arguments ok {A} r.
Arguments status {A} r.
Arguments json {A} r.

(** What [await fetch(url)] comes back with: a rejection (the network
    failed) or a response. *)
Inductive Fetched (A : Type) : Type :=
| Rejected (message : string)
| Resolved (response : Response A).
Arguments Rejected {A} message.
Arguments Resolved {A} response.

(** The JSON answer to [updateVocab]; [message] may be absent. *)
Record UpdateResult : Type := mkUpdateResult {
  success : bool;
  message : option string
}.

(** ** Component state and effects *)

(** The four [useState] cells of [App]. *)
Record AppState : Type := mkAppState {
  vocabCards : list Card;
  currentCardIndex : nat;
  loading : bool;
  error : option string
}.

(** What the component does to the outside, in the order it does it. *)
Inductive Effect : Type :=
| Fetch (request : Request)
| ConsoleError (label : string) (message : string)
| ConsoleLog (text : string).

Record World : Type := mkWorld {
  ui : AppState;
  trace : list Effect
}.

(** How a block ends: normally with a value, or by throwing an [Error],
    of which only the message is ever read. *)
Inductive Completion (A : Type) : Type :=
| Normal (value : A)
| Throw (message : string).
Arguments Normal {A} value.
Arguments Throw {A} message.

Definition M (A : Type) : Type := World -> Completion A * World.

Definition ret {A} (a : A) : M A := fun w => (Normal a, w).

Definition bind {A B} (m : M A) (k : A -> M B) : M B :=
  fun w =>
    match m w with
    | (Normal a, w') => k a w'
    | (Throw e, w') => (Throw e, w')
    end.

Definition throw {A} (e : string) : M A := fun w => (Throw e, w).

(** [try { body } catch (e) { handler }] *)
Definition try_catch {A} (body : M A) (handler : string -> M A) : M A :=
  fun w =>
    match body w with
    | (Normal a, w') => (Normal a, w')
    | (Throw e, w') => handler e w'
    end.

(** [try { body } finally { final }]: [final] runs either way, and the
    completion of [body] stands unless [final] throws. *)
Definition try_finally {A} (body : M A) (final : M unit) : M A :=
  fun w =>
    match body w with
    | (c, w') =>
        match final w' with
        | (Normal _, w'') => (c, w'')
        | (Throw e, w'') => (Throw e, w'')
        end
    end.

Declare Scope js_scope.
Delimit Scope js_scope with js.
Notation "'let*' x ':=' m 'in' k" := (bind m (fun x => k))
  (at level 10, x name, m at level 100, k at level 200) : js_scope.
Notation "m '>>' k" := (bind m (fun _ => k))
  (at level 90, right associativity) : js_scope.

Definition modify (f : AppState -> AppState) : M unit :=
  fun w => (Normal tt, mkWorld (f (ui w)) (trace w)).

Definition emit (e : Effect) : M unit :=
  fun w => (Normal tt, mkWorld (ui w) (trace w ++ [e])).

Definition getState : M AppState := fun w => (Normal (ui w), w).

Definition setVocabCards (v : list Card) : M unit :=
  modify (fun st => mkAppState v (currentCardIndex st) (loading st) (error st)).
Definition setCurrentCardIndex (i : nat) : M unit :=
  modify (fun st => mkAppState (vocabCards st) i (loading st) (error st)).
Definition setLoading (b : bool) : M unit :=
  modify (fun st => mkAppState (vocabCards st) (currentCardIndex st) b (error st)).
Definition setError (e : option string) : M unit :=
  modify (fun st => mkAppState (vocabCards st) (currentCardIndex st) (loading st) e).

(** [await fetch(url)]: the request goes out, and the answer of the
    backend decides between a response and a thrown error. *)
Definition fetch {A} (request : Request) (answer : Fetched A) : M (Response A) :=
  (emit (Fetch request) >>
   match answer with
   | Rejected e => throw e
   | Resolved response => ret response
   end)%js.

(** [if (!response.ok) throw new Error(`HTTP error! status: ...`)] *)
Definition checkOk {A} (response : Response A) : M unit :=
  if negb (ok response)
  then throw ("HTTP error! status: " +:+ pretty (status response))
  else ret tt.

(** [await response.json()] *)
Definition readJson {A} (response : Response A) : M A :=
  match json response with
  | BodyRejected e => throw e
  | BodyJson v => ret v
  end.

(** [result.message || 'Failed to update card.']: an absent or empty
    message is falsy. *)
Definition messageOr (m : option string) (fallback : string) : string :=
  match m with
  | Some (String _ _ as s) => s
  | Some EmptyString | None => fallback
  end.

(** What the clock and the backend supply while one review is handled:
    the time read at line 61, the answer to [updateVocab], and, when the
    update went through, the answer to the [getVocabs] that follows and the
    time read at line 35. *)
Record Env : Type := mkEnv {
  submitTime : Z;
  updateAnswer : Fetched UpdateResult;
  refetchAnswer : Fetched (list Card);
  refetchTime : Z
}.

(** ** The callbacks of [App] *)

Section App.
Context `{DateHost}.

Local Open Scope js_scope.

(** [fetchVocabCards] (lines 21-54), run to completion. [answer] is what
    the backend returns and [now] the time read by [new Date()] once the
    data is there. *)
Definition fetchVocabCards (answer : Fetched (list Card)) (now : Z) : M unit :=
  setLoading true >>
  setError None >>
  try_finally
    (try_catch
       (let* response := fetch getVocabs answer in
        checkOk response >>
        let* data := readJson response in
        setVocabCards (dueCards now data) >>
        setCurrentCardIndex 0)
       (fun e =>
          setError (Some ("Failed to fetch vocabulary: " +:+ e)) >>
          emit (ConsoleError "Fetch error:" e)))
    (setLoading false).

(** Line 61: ninety minutes from the current time, in milliseconds. *)
Definition nextReviewTimeFrom (now : Z) : Z := now + 90 * 60 * 1000.

(** The time values a [Date] can hold: 8.64e15 ms either side of the
    epoch. *)
Definition inDateRange (timeValue : Z) : bool :=
  Z.abs timeValue <=? 8640000000000000.

(** [new Date(timeValue)] on a number: out of range, the Invalid Date. *)
Definition Date_ofTime (timeValue : Z) : Date :=
  if inDateRange timeValue then Some timeValue else None.

(** [date.toISOString()]: the instant to be written in ISO form, or a
    RangeError on the Invalid Date. *)
Definition toISOString (date : Date) : M Z :=
  match date with
  | Some timeValue => ret timeValue
  | None => throw "Invalid time value"
  end.

(** [updateCardState] (lines 58-90), run to completion. *)
Definition updateCardState (cardId : string) (proficiencyLevel : Z)
    (env : Env) : M unit :=
  try_catch
    (let nextReviewTime := Date_ofTime (nextReviewTimeFrom (submitTime env)) in
     let* isoTime := toISOString nextReviewTime in
     let* response :=
       fetch (updateVocab cardId proficiencyLevel isoTime)
             (updateAnswer env) in
     checkOk response >>
     let* result := readJson response in
     (if negb (success result)
      then throw (messageOr (message result) "Failed to update card.")
      else ret tt) >>
     emit (ConsoleLog ("Card " +:+ cardId +:+ " updated successfully.")) >>
     fetchVocabCards (refetchAnswer env) (refetchTime env))
    (fun e =>
       setError (Some ("Failed to update card: " +:+ e)) >>
       emit (ConsoleError "Update error:" e)).

(** Lines 105-109: the new proficiency, kept within 1-5. *)
Definition newProficiency (proficiencyLevel proficiencyIncrease : Z) : Z :=
  let newProficiency := proficiencyLevel + proficiencyIncrease in
  let newProficiency := if newProficiency >? 5 then 5 else newProficiency in
  let newProficiency := if newProficiency <? 1 then 1 else newProficiency in
  newProficiency.

(** [handleNextCard] (lines 101-113).  The buttons pass -1, 0 or 1 (an
    omitted argument would count as 1).  Reading a property of [undefined],
    when the index points past the list, throws a TypeError. *)
Definition handleNextCard (proficiencyIncrease : Z) (env : Env) : M unit :=
  let* st := getState in
  if (length (vocabCards st) =? 0)%nat then ret tt
  else
    match vocabCards st !! currentCardIndex st with
    | None => throw "Cannot read properties of undefined (reading 'ProficiencyLevel')"
    | Some currentCard =>
        updateCardState (ID currentCard)
          (newProficiency (ProficiencyLevel currentCard) proficiencyIncrease)
          env
    end.
End App.

(** A call of the callback [fetchVocabCards].  Its parameter list is empty
    (line 21), so whatever the caller passes is dropped: [now] is what the
    clock reads at line 35, whether or not an instant was passed in. *)
Definition callFetchVocabCards `{DateHost} (argument : option Z)
    (answer : Fetched (list Card)) (clock : Z) : M unit :=
  fetchVocabCards answer clock.

(** ** Rendering (lines 117-170) *)

(** The four screens of the component. *)
Inductive View : Type :=
| LoadingView
| ErrorView (message : string)
| NoCardsDueView
| TrainerView (currentCard : option Card) (cardsDue : nat).

(** Lines 119-170: the "no cards" message, or the trainer with the current
    card. *)
Definition renderCards (st : AppState) : View :=
  if (length (vocabCards st) =? 0)%nat then NoCardsDueView
  else TrainerView (vocabCards st !! currentCardIndex st) (length (vocabCards st)).

(** [if (error)] holds for a string that is not empty. *)
Definition render (st : AppState) : View :=
  if loading st then LoadingView
  else
    match error st with
    | Some (String _ _ as e) => ErrorView e
    | Some EmptyString | None => renderCards st
    end.

(** What the caller of a callback can see once it has run: how it
    completed and the state of the component.  The requests and the console
    are not the caller's to read. *)
Definition observe {A} (r : Completion A * World) : Completion A * AppState :=
  (fst r, ui (snd r)).

(** The state of a freshly mounted component (lines 10-16). *)
Definition initialState : AppState := mkAppState [] 0 true None.

(** ** Arrays as objects

    [filter] returns a new array and [sort] sorts the array it is called on
    in place and returns it.  Arrays live in a store, by reference; the
    cards in them are never written to by the component. *)

Section ArrayStore.
Context {A : Type}.

Definition Array_filter_at (f : A -> bool) (r : nat) (h : gmap nat (list A))
  : option (nat * gmap nat (list A)) :=
  match h !! r with
  | Some arr =>
      let r' := fresh (dom h) in
      Some (r', <[r' := List.filter f arr]> h)
  | None => None
  end.

Definition Array_sort_at (comparefn : A -> A -> Number) (r : nat)
    (h : gmap nat (list A)) : option (nat * gmap nat (list A)) :=
  match h !! r with
  | Some arr => Some (r, <[r := Array_sort comparefn arr]> h)
  | None => None
  end.
End ArrayStore.

(** Lines 36-43 on the store: [data] is the reference of the fetched
    array, the result the reference of the due queue. *)
Definition dueCards_at `{DateHost} (now : Z) (data : nat)
    (h : gmap nat (list Card)) : option (nat * gmap nat (list Card)) :=
  match Array_filter_at (isDue now) data h with
  | Some (filtered, h') => Array_sort_at byNextReviewTime filtered h'
  | None => None
  end.

(** ** Vocabulary of the specification *)

(** [clamp(x, lo, hi)] *)
Definition clamp (x lo hi : Z) : Z := Z.max lo (Z.min x hi).

(** A duration of [n] minutes, in milliseconds. *)
Definition minutes (n : Z) : Z := n * 60000.

(** The reference instant of the selector as the specification words it:
    the instant supplied, and the current instant when none is. *)
Definition referenceInstant (supplied : option Z) (current : Z) : Z :=
  default current supplied.

Section SpecWords.
Context `{DateHost}.

(** A card is due at [now]: its next review time is an instant, at or
    before [now]. *)
Definition DueAt (now : Z) (card : Card) : Prop :=
  exists t, nextReview card = Some t /\ t <= now.

(** [a] is to be reviewed no later than [b]. *)
Definition NotAfter (a b : Card) : Prop :=
  exists ta tb, nextReview a = Some ta /\ nextReview b = Some tb /\ ta <= tb.

(** The next review time of the card is the instant [t]. *)
Definition reviewedAt (t : Z) (card : Card) : bool :=
  match nextReview card with
  | Some u => u =? t
  | None => false
  end.
End SpecWords.

(** The ways a request can fail, with the message of the error thrown. *)
Inductive FetchFailure {A : Type} : Fetched A -> string -> Prop :=
| NetworkFailure (e : string) :
    FetchFailure (Rejected e) e
| HttpFailure (r : Response A) :
    ok r = false ->
    FetchFailure (Resolved r) ("HTTP error! status: " +:+ pretty (status r))
| BodyFailure (r : Response A) (e : string) :
    ok r = true -> json r = BodyRejected e ->
    FetchFailure (Resolved r) e.

(** An update is not saved when the request fails or the backend answers
    without [success]. *)
Inductive PersistFailure : Fetched UpdateResult -> string -> Prop :=
| PersistNotSent (a : Fetched UpdateResult) (e : string) :
    FetchFailure a e -> PersistFailure a e
| PersistRefused (r : Response UpdateResult) (result : UpdateResult) :
    ok r = true -> json r = BodyJson result -> success result = false ->
    PersistFailure (Resolved r)
      (messageOr (message result) "Failed to update card.").

(** The request came back with the value [v]. *)
Inductive Delivers {A : Type} : Fetched A -> A -> Prop :=
| Delivered (r : Response A) (v : A) :
    ok r = true -> json r = BodyJson v -> Delivers (Resolved r) v.

(** ** Sample data *)

(** A host that reads the ISO form of three instants of 1 May 2024 (08:00,
    09:00 and 10:00 UTC); every other string it is given here is not a
    date. *)
Definition sampleHost : DateHost :=
  {| Date_parse := fun s =>
       if String.eqb s "2024-05-01T08:00:00.000Z" then Some 1714550400000
       else if String.eqb s "2024-05-01T09:00:00.000Z" then Some 1714554000000
       else if String.eqb s "2024-05-01T10:00:00.000Z" then Some 1714557600000
       else None |}.

Definition cardA : Card :=
  mkCard "A" "water" "seoi" "seoi2" 3 "2024-05-01T08:00:00.000Z".
Definition cardB : Card :=
  mkCard "B" "fire" "fo" "fo2" 5 "2024-05-01T10:00:00.000Z".
Definition cardC : Card :=
  mkCard "C" "mountain" "saan" "saan1" 1 "2024-05-01T09:00:00.000Z".
Definition cardD : Card :=
  mkCard "D" "person" "jan" "jan4" 2 "2024-05-01T09:00:00.000Z".
Definition cardX : Card :=
  mkCard "X" "moon" "jyut" "jyut6" 4 "soon".

(** 08:00 and 09:00 UTC on 1 May 2024. *)
Definition eight : Z := 1714550400000.
Definition nine : Z := 1714554000000.

Definition readyState (cards : list Card) : AppState :=
  mkAppState cards 0 false None.

Definition ok200 {A} (v : A) : Fetched A :=
  Resolved (mkResponse true 200 (BodyJson v)).

Definition http500 {A} : Fetched A :=
  Resolved (mkResponse false 500 (BodyRejected "Unexpected token < in JSON")).

(** A review whose update the backend answers with status 500. *)
Definition failingEnv (now : Z) : Env :=
  mkEnv now http500 (ok200 []) now.

(** 08:30 UTC on 1 May 2024, ninety minutes before 10:00. *)
Definition halfPastEight : Z := 1714552200000.

(** 10:00 UTC on 1 May 2024. *)
Definition ten : Z := 1714557600000.

(** One second before the last instant a [Date] can hold. *)
Definition lastSecond : Z := 8639999999999000.

(** The answer of the backend to an update it has written. *)
Definition saved : UpdateResult := mkUpdateResult true None.

(** A review that is saved, after which [sheet] comes back a second
    later; and one that is saved, after which the fetch is answered with
    status 500. *)
Definition savedEnv (now : Z) (sheet : list Card) : Env :=
  mkEnv now (ok200 saved) (ok200 sheet) (now + 1000).
Definition lostEnv (now : Z) : Env :=
  mkEnv now (ok200 saved) http500 (now + 1000).

(** ** The life of the component *)

(** The callbacks that run while the component is mounted: the effect of
    lines 94-96, which fetches the cards, and a press of one of the three
    buttons (lines 143-160).  Each is taken from its start to the end of
    the promise it starts, one after another. *)
Inductive Callback : Type :=
| Mounted (answer : Fetched (list Card)) (now : Z)
| Marked (proficiencyIncrease : Z) (env : Env).

Definition run `{DateHost} (c : Callback) : M unit :=
  match c with
  | Mounted answer now => fetchVocabCards answer now
  | Marked proficiencyIncrease env => handleNextCard proficiencyIncrease env
  end.

Fixpoint runAll `{DateHost} (cs : list Callback) (w : World) : World :=
  match cs with
  | [] => w
  | c :: cs' => runAll cs' (snd (run c w))
  end.

(** The worlds the component can be in: those some sequence of callbacks
    leads to from the freshly mounted component. *)
Definition Reachable `{DateHost} (w : World) : Prop :=
  exists cs, w = runAll cs (mkWorld initialState []).

(** The requests of a trace, in the order they were sent. *)
Fixpoint requestsOf (t : list Effect) : list Request :=
  match t with
  | [] => []
  | Fetch request :: t' => request :: requestsOf t'
  | _ :: t' => requestsOf t'
  end.

(** The proficiency levels a list of requests writes to the sheet. *)
Fixpoint levelsWritten (rs : list Request) : list Z :=
  match rs with
  | [] => []
  | updateVocab _ proficiencyLevel _ :: rs' =>
      proficiencyLevel :: levelsWritten rs'
  | getVocabs :: rs' => levelsWritten rs'
  end.

(** The card has a next review time that is a date. *)
Definition Dated `{DateHost} (card : Card) : Prop :=
  exists t, nextReview card = Some t.

(** What holds of the component between callbacks: the index is at the
    first card, the due list is sorted with every card dated, the error is
    never the empty string, and every level written is within 1-5. *)
Definition WellKept `{DateHost} (w : World) : Prop :=
  currentCardIndex (ui w) = 0%nat /\
  StronglySorted NotAfter (vocabCards (ui w)) /\
  Forall Dated (vocabCards (ui w)) /\
  error (ui w) <> Some EmptyString /\
  Forall (fun level => 1 <= level <= 5) (levelsWritten (requestsOf (trace w))).

(** The component once it has fetched a sheet of three cards at 09:00,
    and once its first fetch has failed. *)
Definition mountedWorld : World :=
  @runAll sampleHost [Mounted (ok200 [cardC; cardA; cardB]) nine]
    (mkWorld initialState []).
Definition failedWorld : World :=
  @runAll sampleHost [Mounted http500 nine] (mkWorld initialState []).

(** ** The Flashcard component (src/components/Flashcard.jsx) *)

Record FlashcardProps : Type := mkFlashcardProps {
  english : string;
  cantonese : string;
  jyutping : string;
  proficiency : Z
}.

(** [flipCard]: [setShowCantonese(!showCantonese)] *)
Definition flipCard (showCantonese : bool) : bool := negb showCantonese.

(** The side of the card that is drawn. *)
Inductive Face : Type :=
| EnglishFace (text : string)
| CantoneseFace (text : string) (romanisation : string).

(** What the component draws: the level in the corner and one side. *)
Record FlashcardView : Type := mkFlashcardView {
  levelShown : Z;
  face : Face
}.

Definition Flashcard (props : FlashcardProps) (showCantonese : bool)
  : FlashcardView :=
  mkFlashcardView (proficiency props)
    (if showCantonese
     then CantoneseFace (cantonese props) (jyutping props)
     else EnglishFace (english props)).

(** The state after a number of clicks on the card, from [useState(false)]. *)
Fixpoint clicked (n : nat) : bool :=
  match n with
  | O => false
  | S n' => flipCard (clicked n')
  end.

(** The props [App] hands to [Flashcard] (lines 131-136). *)
Definition flashcardProps (currentCard : Card) : FlashcardProps :=
  mkFlashcardProps (English currentCard) (Cantonese currentCard)
    (Jyutping currentCard) (ProficiencyLevel currentCard).

(** * Properties *)

(** ** The stable sort *)

Section ArraySortFacts.
Context {A : Type}.
Variable comparefn : A -> A -> Number.

Lemma sort_insert_Permutation (x : A) (l : list A) :
  Permutation (sort_insert comparefn x l) (x :: l).
Proof.
  induction l as [|y l IH]; simpl; [reflexivity|].
  destruct (SortCompare comparefn x y <=? 0); [reflexivity|].
  rewrite IH. apply perm_swap.
Qed.

Lemma Array_sort_Permutation (l : list A) :
  Permutation (Array_sort comparefn l) l.
Proof.
  induction l as [|x l IH]; simpl; [reflexivity|].
  rewrite sort_insert_Permutation. now apply perm_skip.
Qed.

Lemma Array_sort_In (x : A) (l : list A) :
  In x (Array_sort comparefn l) <-> In x l.
Proof.
  split; apply Permutation_in;
    [|symmetry]; apply Array_sort_Permutation.
Qed.

(** Sortedness, for a relation that the comparator decides on the
    elements at hand. *)
Section Sorted.
Variable R : A -> A -> Prop.
Variable good : A -> Prop.
Hypothesis R_trans : forall x y z, R x y -> R y z -> R x z.
Hypothesis le_R : forall x y,
  good x -> good y -> SortCompare comparefn x y <= 0 -> R x y.
Hypothesis gt_R : forall x y,
  good x -> good y -> 0 < SortCompare comparefn x y -> R y x.

Lemma sort_insert_StronglySorted (x : A) (l : list A) :
  good x -> Forall good l -> StronglySorted R l ->
  StronglySorted R (sort_insert comparefn x l).
Proof.
  intros Hx Hl Hs.
  induction Hs as [|y l Hs IH Hy]; simpl.
  - repeat constructor.
  - inversion Hl as [|? ? Gy Gl]; subst.
    destruct (Z.leb_spec (SortCompare comparefn x y) 0) as [Hle|Hgt].
    + assert (Rxy : R x y) by now apply le_R.
      constructor; [now constructor|].
      constructor; [exact Rxy|].
      eapply Forall_impl; [exact Hy|].
      intros z Ryz. now apply R_trans with y.
    + constructor; [now apply IH|].
      rewrite sort_insert_Permutation.
      constructor; [now apply gt_R | exact Hy].
Qed.

Lemma Array_sort_StronglySorted (l : list A) :
  Forall good l -> StronglySorted R (Array_sort comparefn l).
Proof.
  induction 1 as [|x l Hx Hl IH]; simpl; [constructor|].
  apply sort_insert_StronglySorted; [exact Hx| |exact IH].
  now rewrite Array_sort_Permutation.
Qed.
End Sorted.

(** Stability, for a class [k] of elements that the comparator never
    separates: their order is the one they came in. *)
Section Stable.
Variable k : A -> bool.
Hypothesis k_tied : forall x y,
  k x = true -> k y = true -> SortCompare comparefn x y <= 0.

Lemma sort_insert_stable (x : A) (l : list A) :
  List.filter k (sort_insert comparefn x l) = List.filter k (x :: l).
Proof.
  induction l as [|y l IH]; [reflexivity|].
  cbn [sort_insert].
  destruct (Z.leb_spec (SortCompare comparefn x y) 0) as [Hle|Hgt];
    [reflexivity|].
  cbn [List.filter] in *. rewrite IH.
  destruct (k x) eqn:Kx, (k y) eqn:Ky; try reflexivity.
  specialize (k_tied x y Kx Ky). lia.
Qed.

Lemma Array_sort_stable (l : list A) :
  List.filter k (Array_sort comparefn l) = List.filter k l.
Proof.
  induction l as [|x l IH]; [reflexivity|].
  cbn [Array_sort]. rewrite sort_insert_stable.
  cbn [List.filter]. now rewrite IH.
Qed.
End Stable.
End ArraySortFacts.

(** ** The due queue *)

Section DueQueueFacts.
Context `{DateHost}.

Lemma isDue_DueAt (now : Z) (c : Card) :
  isDue now c = true <-> DueAt now c.
Proof.
  unfold isDue, DueAt, Date_le.
  destruct (nextReview c) as [t|]; split.
  - intros Hle. exists t. split; [reflexivity|lia].
  - intros (u & [= <-] & Hle). lia.
  - discriminate.
  - intros (u & [=] & _).
Qed.

Lemma dueCards_Permutation (now : Z) (data : list Card) :
  Permutation (dueCards now data) (List.filter (isDue now) data).
Proof. apply Array_sort_Permutation. Qed.

Lemma dueCards_In (now : Z) (data : list Card) (c : Card) :
  In c (dueCards now data) <-> In c data /\ DueAt now c.
Proof.
  unfold dueCards.
  rewrite Array_sort_In, filter_In, isDue_DueAt. reflexivity.
Qed.

Lemma dueCards_count (now : Z) (data : list Card) (c : Card) :
  count_occ Card_eq_dec (dueCards now data) c =
  if isDue now c then count_occ Card_eq_dec data c else 0%nat.
Proof.
  pose proof (dueCards_Permutation now data) as HP.
  rewrite (Permutation_count_occ Card_eq_dec) in HP. rewrite HP.
  clear HP. induction data as [|d data IH]; simpl.
  - now destruct (isDue now c).
  - destruct (isDue now d) eqn:Hd; simpl.
    + destruct (Card_eq_dec d c) as [->|Hne].
      * rewrite Hd in *. now rewrite IH.
      * exact IH.
    + destruct (Card_eq_dec d c) as [->|Hne].
      * rewrite Hd in *. exact IH.
      * exact IH.
Qed.

Lemma dueCards_all_dated (now : Z) (data : list Card) :
  Forall (fun c => exists t, nextReview c = Some t)
         (List.filter (isDue now) data).
Proof.
  apply List.Forall_forall. intros c Hc.
  apply filter_In in Hc as [_ Hc]. apply isDue_DueAt in Hc.
  destruct Hc as (t & Ht & _). now exists t.
Qed.

Lemma NotAfter_trans (a b c : Card) :
  NotAfter a b -> NotAfter b c -> NotAfter a c.
Proof.
  intros (ta & tb & Ha & Hb & Hab) (tb' & tc & Hb' & Hc & Hbc).
  exists ta, tc. repeat split; try assumption.
  rewrite Hb in Hb'. injection Hb' as <-. lia.
Qed.

Lemma dueCards_StronglySorted (now : Z) (data : list Card) :
  StronglySorted NotAfter (dueCards now data).
Proof.
  unfold dueCards.
  apply Array_sort_StronglySorted
    with (good := fun c => exists t, nextReview c = Some t).
  - exact NotAfter_trans.
  - intros x y [tx Hx] [ty Hy].
    unfold SortCompare, byNextReviewTime. rewrite Hx, Hy. simpl.
    intros Hle. exists tx, ty. repeat split; try assumption. lia.
  - intros x y [tx Hx] [ty Hy].
    unfold SortCompare, byNextReviewTime. rewrite Hx, Hy. simpl.
    intros Hlt. exists ty, tx. repeat split; try assumption. lia.
  - apply dueCards_all_dated.
Qed.

Lemma reviewedAt_tied (t : Z) (x y : Card) :
  reviewedAt t x = true -> reviewedAt t y = true ->
  SortCompare byNextReviewTime x y <= 0.
Proof.
  unfold reviewedAt, SortCompare, byNextReviewTime.
  destruct (nextReview x) as [tx|]; [|discriminate].
  destruct (nextReview y) as [ty|]; [|discriminate].
  simpl. lia.
Qed.

Lemma reviewedAt_due (now t : Z) (data : list Card) :
  List.filter (reviewedAt t) (List.filter (isDue now) data) =
  if t <=? now then List.filter (reviewedAt t) data else [].
Proof.
  induction data as [|c data IH]; simpl.
  - now destruct (t <=? now).
  - assert (Hc : reviewedAt t c = true -> isDue now c = (t <=? now)).
    { unfold reviewedAt, isDue, Date_le.
      destruct (nextReview c) as [u|]; [|discriminate].
      intros Hu. apply Z.eqb_eq in Hu. now subst. }
    destruct (reviewedAt t c) eqn:Rc.
    + rewrite (Hc eq_refl).
      destruct (t <=? now); simpl; [now rewrite Rc, IH | exact IH].
    + destruct (isDue now c); simpl; rewrite ?Rc, IH; reflexivity.
Qed.

(** C1.  A card is in the due queue exactly when it is in the snapshot
    and its next review time is at or before [now]; a card due at
    exactly [now] is in it; and in a snapshot that lists every card once,
    every due card is in the queue exactly once. *)
Theorem due_queue_selects (data : list Card) (now : Z) (c : Card) :
  (In c (dueCards now data) <-> In c data /\ DueAt now c) /\
  (In c data -> nextReview c = Some now -> In c (dueCards now data)) /\
  (List.NoDup data -> In c data -> DueAt now c ->
   count_occ Card_eq_dec (dueCards now data) c = 1%nat).
Proof.
  split; [apply dueCards_In|]. split.
  - intros Hin Hnow. apply dueCards_In. split; [exact Hin|].
    exists now. split; [exact Hnow|lia].
  - intros Hnd Hin Hdue.
    rewrite dueCards_count.
    apply isDue_DueAt in Hdue. rewrite Hdue.
    apply (proj1 (NoDup_count_occ' Card_eq_dec data)); assumption.
Qed.

(** C2.  The due queue is sorted by next review time, earliest first,
    and the cards to be reviewed at one same instant [t] come in the
    order they have in the snapshot. *)
Theorem due_queue_sorted_stable (data : list Card) (now : Z) :
  StronglySorted NotAfter (dueCards now data) /\
  forall t,
    List.filter (reviewedAt t) (dueCards now data) =
    if t <=? now then List.filter (reviewedAt t) data else [].
Proof.
  split; [apply dueCards_StronglySorted|].
  intros t. unfold dueCards.
  rewrite Array_sort_stable by apply reviewedAt_tied.
  apply reviewedAt_due.
Qed.
End DueQueueFacts.

(** C1, on a snapshot of three cards at 09:00: the card due at exactly
    09:00 is in the queue once. *)
Lemma due_queue_selects_witness :
  List.NoDup [cardA; cardB; cardC] /\
  In cardC [cardA; cardB; cardC] /\
  @DueAt sampleHost nine cardC /\
  count_occ Card_eq_dec (@dueCards sampleHost nine [cardA; cardB; cardC]) cardC
  = 1%nat.
Proof.
  assert (Hnd : List.NoDup [cardA; cardB; cardC]).
  { repeat constructor; simpl; intuition discriminate. }
  assert (Hin : In cardC [cardA; cardB; cardC]) by (simpl; auto).
  assert (Hdue : @DueAt sampleHost nine cardC).
  { exists nine. split; [reflexivity|]. unfold nine. lia. }
  split; [exact Hnd|]. split; [exact Hin|]. split; [exact Hdue|].
  exact (proj2 (proj2 (@due_queue_selects sampleHost
                         [cardA; cardB; cardC] nine cardC)) Hnd Hin Hdue).
Defined.

(** The scenarios of the specification: one card an hour overdue and one
    due in an hour; two cards due at exactly [now], with one that is not a
    date and one overdue ahead of them. *)
Example due_queue_scenario_one_due :
  @dueCards sampleHost nine [cardA; cardB] = [cardA].
Proof. reflexivity. Qed.

Example due_queue_scenario_ties :
  @dueCards sampleHost nine [cardD; cardX; cardB; cardC; cardA]
  = [cardA; cardD; cardC].
Proof. reflexivity. Qed.

(** ** The callbacks *)

Section AppFacts.
Context `{DateHost}.

Lemma fetchVocabCards_delivered (answer : Fetched (list Card))
    (data : list Card) (now : Z) (w : World) :
  Delivers answer data ->
  fetchVocabCards answer now w =
  (Normal tt,
   mkWorld (mkAppState (dueCards now data) 0 false None)
           (trace w ++ [Fetch getVocabs])).
Proof.
  intros [r v Hok Hjson].
  unfold fetchVocabCards, try_finally, try_catch, bind, fetch, checkOk,
    readJson, emit, ret, setLoading, setError, setVocabCards,
    setCurrentCardIndex, modify; simpl.
  rewrite Hok, Hjson. reflexivity.
Qed.

Lemma fetchVocabCards_failed (answer : Fetched (list Card)) (e : string)
    (now : Z) (w : World) :
  FetchFailure answer e ->
  fetchVocabCards answer now w =
  (Normal tt,
   mkWorld (mkAppState (vocabCards (ui w)) (currentCardIndex (ui w)) false
              (Some ("Failed to fetch vocabulary: " +:+ e)))
           (trace w ++ [Fetch getVocabs; ConsoleError "Fetch error:" e])).
Proof.
  intros Hfail.
  unfold fetchVocabCards, try_finally, try_catch, bind, fetch, checkOk,
    readJson, emit, ret, throw, setLoading, setError, setVocabCards,
    setCurrentCardIndex, modify.
  destruct Hfail as [e|r Hok|r e Hok Hjson]; simpl;
    rewrite <- ?app_assoc; try rewrite Hok; try rewrite Hjson; simpl;
    rewrite <- ?app_assoc; reflexivity.
Qed.

Lemma updateCardState_failed (cardId : string) (proficiencyLevel : Z)
    (env : Env) (e : string) (w : World) :
  inDateRange (nextReviewTimeFrom (submitTime env)) = true ->
  PersistFailure (updateAnswer env) e ->
  updateCardState cardId proficiencyLevel env w =
  (Normal tt,
   mkWorld (mkAppState (vocabCards (ui w)) (currentCardIndex (ui w))
              (loading (ui w)) (Some ("Failed to update card: " +:+ e)))
           (trace w ++
            [Fetch (updateVocab cardId proficiencyLevel
                      (nextReviewTimeFrom (submitTime env)));
             ConsoleError "Update error:" e])).
Proof.
  intros Hrange Hfail.
  unfold updateCardState, try_catch, bind, fetch, checkOk, readJson, emit,
    ret, throw, setError, modify, toISOString, Date_ofTime.
  rewrite Hrange.
  destruct Hfail as [a e [e'|r Hok|r e' Hok Hjson]|r result Hok Hjson Hs];
    simpl; rewrite <- ?app_assoc; try rewrite Hok; try rewrite Hjson; simpl;
    try rewrite Hs; simpl; rewrite <- ?app_assoc; reflexivity.
Qed.

(** A request either fails or delivers a value, and never both. *)
Lemma FetchFailure_or_Delivers {A : Type} (answer : Fetched A) :
  (exists e, FetchFailure answer e) \/ (exists v, Delivers answer v).
Proof.
  destruct answer as [e|r].
  - left. exists e. constructor.
  - destruct (ok r) eqn:Hok.
    + destruct (json r) as [e|v] eqn:Hjson.
      * left. exists e. now apply BodyFailure.
      * right. exists v. now constructor.
    + left. eexists. now apply HttpFailure.
Qed.

Lemma FetchFailure_not_Delivers {A : Type} (answer : Fetched A) (e : string)
    (v : A) :
  FetchFailure answer e -> Delivers answer v -> False.
Proof.
  intros Hfail Hok. destruct Hok as [r v Hok Hjson].
  inversion Hfail; subst; congruence.
Qed.

(** An update is saved or not saved. *)
Lemma PersistFailure_or_saved (answer : Fetched UpdateResult) :
  (exists e, PersistFailure answer e) \/
  (exists result, Delivers answer result /\ success result = true).
Proof.
  destruct (FetchFailure_or_Delivers answer) as [[e He]|[result Hres]].
  - left. exists e. now constructor.
  - destruct (success result) eqn:Hs.
    + right. now exists result.
    + left. destruct Hres as [r result Hok Hjson].
      eexists. now apply PersistRefused with (result := result).
Qed.

Lemma fetchVocabCards_trace (answer : Fetched (list Card)) (now : Z)
    (w : World) :
  exists rest,
    trace (snd (fetchVocabCards answer now w)) = trace w ++ Fetch getVocabs :: rest.
Proof.
  unfold fetchVocabCards, try_finally, try_catch, bind, fetch, checkOk,
    readJson, emit, ret, throw, setLoading, setError, setVocabCards,
    setCurrentCardIndex, modify.
  destruct answer as [e|[okr st [e|data]]]; simpl;
    try destruct okr; simpl; rewrite <- ?app_assoc; eexists; reflexivity.
Qed.

Lemma updateCardState_sends (cardId : string) (proficiencyLevel : Z)
    (env : Env) (w : World) :
  inDateRange (nextReviewTimeFrom (submitTime env)) = true ->
  trace (snd (updateCardState cardId proficiencyLevel env w))
    !! length (trace w)
  = Some (Fetch (updateVocab cardId proficiencyLevel
                   (nextReviewTimeFrom (submitTime env)))).
Proof.
  assert (Hhead : forall (l rest : list Effect) (x : Effect),
             (l ++ x :: rest) !! length l = Some x).
  { intros l rest x. rewrite lookup_app_r by lia.
    now rewrite Nat.sub_diag. }
  intros Hrange.
  unfold updateCardState, try_catch, bind, fetch, checkOk, readJson, emit,
    ret, throw, setError, modify, toISOString, Date_ofTime.
  rewrite Hrange.
  destruct (updateAnswer env) as [e|[okr st [e|result]]]; simpl.
  - rewrite <- app_assoc. apply Hhead.
  - destruct okr; simpl; rewrite <- app_assoc; apply Hhead.
  - destruct okr; simpl; [|rewrite <- app_assoc; apply Hhead].
    destruct (success result); simpl; [|rewrite <- app_assoc; apply Hhead].
    match goal with
    | |- context [fetchVocabCards ?a ?n ?w0] =>
        destruct (fetchVocabCards_trace a n w0) as [rest Hrest];
        destruct (fetchVocabCards a n w0) as [[[]|e] w'] eqn:Hf
    end; simpl in *; rewrite ?Hrest; simpl;
      rewrite <- ?app_assoc; simpl; apply Hhead.
Qed.
End AppFacts.

(** ** Reviewing a card *)

Section Review.
Context `{DateHost}.

Lemma newProficiency_clamp (p d : Z) :
  newProficiency p d = clamp (p + d) 1 5.
Proof.
  unfold newProficiency, clamp.
  destruct (Z.gtb_spec (p + d) 5); destruct (Z.ltb_spec (p + d) 1);
    try destruct (Z.ltb_spec 5 1); lia.
Qed.

Lemma handleNextCard_sends (d : Z) (env : Env) (w : World) (card : Card) :
  inDateRange (nextReviewTimeFrom (submitTime env)) = true ->
  vocabCards (ui w) !! currentCardIndex (ui w) = Some card ->
  trace (snd (handleNextCard d env w)) !! length (trace w)
  = Some (Fetch (updateVocab (ID card)
                   (newProficiency (ProficiencyLevel card) d)
                   (nextReviewTimeFrom (submitTime env)))).
Proof.
  intros Hrange Hcur. unfold handleNextCard, bind, getState.
  destruct (vocabCards (ui w)) as [|c0 cards] eqn:Hcards;
    [discriminate|].
  cbn [length Nat.eqb]. rewrite Hcur.
  now apply updateCardState_sends.
Qed.

(** C3.  The proficiency a review produces is [clamp(p + d, 1, 5)] for
    every level [p] and every delta [d], in range or not: it lies in
    [1, 5], it saturates at either end, and it is what the handler sends
    to the backend for the card on display, whenever the next review time
    is one a [Date] can hold, so that a request is sent at all. *)
Theorem review_clamps_proficiency (p d : Z) :
  newProficiency p d = clamp (p + d) 1 5 /\
  1 <= newProficiency p d <= 5 /\
  newProficiency 5 1 = 5 /\
  newProficiency 1 (-1) = 1 /\
  forall (card : Card) (env : Env) (w : World),
    inDateRange (nextReviewTimeFrom (submitTime env)) = true ->
    ProficiencyLevel card = p ->
    vocabCards (ui w) !! currentCardIndex (ui w) = Some card ->
    exists t,
      trace (snd (handleNextCard d env w)) !! length (trace w)
      = Some (Fetch (updateVocab (ID card) (clamp (p + d) 1 5) t)).
Proof.
  split; [apply newProficiency_clamp|].
  split; [rewrite newProficiency_clamp; unfold clamp; lia|].
  split; [reflexivity|]. split; [reflexivity|].
  intros card env w Hrange Hp Hcur.
  exists (nextReviewTimeFrom (submitTime env)).
  rewrite (handleNextCard_sends d env w card Hrange Hcur), Hp.
  now rewrite newProficiency_clamp.
Qed.

(** C4.  Whatever the card on display and whatever the delta, the next
    review time sent with a review is the time of the submission plus
    ninety minutes, for every time of submission from which ninety minutes
    on is still an instant a [Date] can hold. *)
Theorem review_reschedules_after_ninety_minutes (d : Z) (env : Env)
    (w : World) (card : Card) :
  inDateRange (submitTime env + minutes 90) = true ->
  vocabCards (ui w) !! currentCardIndex (ui w) = Some card ->
  nextReviewTimeFrom (submitTime env) = submitTime env + minutes 90 /\
  exists level,
    trace (snd (handleNextCard d env w)) !! length (trace w)
    = Some (Fetch (updateVocab (ID card) level
                     (submitTime env + minutes 90))).
Proof.
  intros Hrange Hcur.
  assert (Hn : nextReviewTimeFrom (submitTime env)
               = submitTime env + minutes 90)
    by (unfold nextReviewTimeFrom, minutes; lia).
  split; [exact Hn|].
  exists (newProficiency (ProficiencyLevel card) d).
  rewrite <- Hn in Hrange.
  rewrite (handleNextCard_sends d env w card Hrange Hcur). now rewrite Hn.
Qed.

(** C10.  With no card due the handler does nothing: it completes, the
    state of the component is the one it found, and nothing is sent or
    logged. *)
Theorem review_without_cards_is_noop (d : Z) (env : Env) (w : World) :
  vocabCards (ui w) = [] ->
  handleNextCard d env w = (Normal tt, w).
Proof.
  intros Hnil. unfold handleNextCard, bind, getState.
  now rewrite Hnil.
Qed.

(** C5, as the code has it.  When the update request is sent and is not
    saved, the callback completes without a value, the error of the
    component becomes "Failed to update card: " followed by the reason,
    the due list, the index and the loading flag stay as they were, and
    the only request made is the update itself. *)
Theorem persist_failure_sets_error (cardId : string) (proficiencyLevel : Z)
    (env : Env) (e : string) (w : World) :
  inDateRange (nextReviewTimeFrom (submitTime env)) = true ->
  PersistFailure (updateAnswer env) e ->
  updateCardState cardId proficiencyLevel env w =
  (Normal tt,
   mkWorld (mkAppState (vocabCards (ui w)) (currentCardIndex (ui w))
              (loading (ui w)) (Some ("Failed to update card: " +:+ e)))
           (trace w ++
            [Fetch (updateVocab cardId proficiencyLevel
                      (nextReviewTimeFrom (submitTime env)));
             ConsoleError "Update error:" e])).
Proof. apply updateCardState_failed. Qed.
End Review.

(** C3, for the card [cardB] at level 5 marked easy. *)
Lemma review_clamps_proficiency_witness :
  exists t,
    trace (snd (@handleNextCard sampleHost 1 (failingEnv nine)
                  (mkWorld (readyState [cardB]) [])))
      !! length (@nil Effect)
    = Some (Fetch (updateVocab "B" (clamp (5 + 1) 1 5) t)).
Proof.
  exact (proj2 (proj2 (proj2 (proj2
           (@review_clamps_proficiency sampleHost 5 1))))
           cardB (failingEnv nine) (mkWorld (readyState [cardB]) [])
           eq_refl eq_refl eq_refl).
Defined.

(** C4, for the same review at 09:00. *)
Lemma review_reschedules_after_ninety_minutes_witness :
  nextReviewTimeFrom nine = nine + minutes 90 /\
  exists level,
    trace (snd (@handleNextCard sampleHost 1 (failingEnv nine)
                  (mkWorld (readyState [cardB]) [])))
      !! length (@nil Effect)
    = Some (Fetch (updateVocab "B" level (nine + minutes 90))).
Proof.
  exact (@review_reschedules_after_ninety_minutes sampleHost 1 (failingEnv nine)
           (mkWorld (readyState [cardB]) []) cardB eq_refl eq_refl).
Defined.

(** In the last second a [Date] can hold, ninety minutes on is no
    instant any more: the handler sends nothing and the component is left
    with the RangeError. *)
Example review_in_the_last_second :
  @handleNextCard sampleHost 1 (failingEnv lastSecond)
    (mkWorld (readyState [cardB]) [])
  = (Normal tt,
     mkWorld (mkAppState [cardB] 0 false
                (Some "Failed to update card: Invalid time value"))
             [ConsoleError "Update error:" "Invalid time value"]).
Proof. reflexivity. Qed.

(** C10, on the component before anything is loaded. *)
Lemma review_without_cards_is_noop_witness :
  @handleNextCard sampleHost 1 (failingEnv nine) (mkWorld initialState [])
  = (Normal tt, mkWorld initialState []).
Proof.
  exact (@review_without_cards_is_noop sampleHost 1 (failingEnv nine)
           (mkWorld initialState []) eq_refl).
Defined.

(** C5, on an update that the backend answers with status 500. *)
Lemma persist_failure_sets_error_witness :
  @updateCardState sampleHost "B" 5 (failingEnv nine)
    (mkWorld (readyState [cardB]) [])
  = (Normal tt,
     mkWorld (mkAppState [cardB] 0 false
                (Some "Failed to update card: HTTP error! status: 500"))
             [Fetch (updateVocab "B" 5 (nine + minutes 90));
              ConsoleError "Update error:" "HTTP error! status: 500"]).
Proof.
  apply (@persist_failure_sets_error sampleHost "B" 5 (failingEnv nine)
           "HTTP error! status: 500" (mkWorld (readyState [cardB]) [])
           eq_refl).
  apply PersistNotSent.
  exact (HttpFailure
           (mkResponse false 500 (BodyRejected "Unexpected token < in JSON"))
           eq_refl).
Defined.

(** C5, as stated, fails: after a failed update nothing the caller gets
    back determines the pair that was computed.  Marking the card [cardA],
    at level 3, "same" or "easy" computes the levels 3 and 4, and leaves
    the caller with one and the same outcome. *)
Lemma persist_failure_returns_no_pair :
  ~ exists recover : Completion unit * AppState -> Z * Z,
      forall (proficiencyIncrease now : Z),
        recover (observe (@handleNextCard sampleHost proficiencyIncrease
                            (failingEnv now)
                            (mkWorld (readyState [cardA]) [])))
        = (newProficiency (ProficiencyLevel cardA) proficiencyIncrease,
           nextReviewTimeFrom now).
Proof.
  intros [recover Hrec].
  pose proof (Hrec 0 nine) as Hsame.
  pose proof (Hrec 1 nine) as Heasy.
  assert (Hobs :
    observe (@handleNextCard sampleHost 0 (failingEnv nine)
               (mkWorld (readyState [cardA]) []))
    = observe (@handleNextCard sampleHost 1 (failingEnv nine)
                 (mkWorld (readyState [cardA]) []))) by reflexivity.
  rewrite Hobs in Hsame. rewrite Hsame in Heasy. discriminate Heasy.
Qed.

(** ** Loading the due queue *)

Section Loading.
Context `{DateHost}.

Lemma dueCards_at_spec (now : Z) (r : nat) (h : gmap nat (list Card))
    (data : list Card) :
  h !! r = Some data ->
  exists r' h',
    dueCards_at now r h = Some (r', h') /\
    h' !! r' = Some (dueCards now data) /\
    h' !! r = Some data /\
    forall r0, r0 <> r' -> h' !! r0 = h !! r0.
Proof.
  intros Hr. unfold dueCards_at, Array_filter_at, Array_sort_at.
  rewrite Hr. set (r' := fresh (dom h)).
  assert (Hfresh : h !! r' = None)
    by (apply not_elem_of_dom, is_fresh).
  assert (Hne : r' <> r) by (intros ->; congruence).
  rewrite lookup_insert_eq.
  eexists r', _. split; [reflexivity|].
  split; [now rewrite lookup_insert_eq|].
  split.
  - now rewrite !lookup_insert_ne by exact Hne.
  - intros r0 Hr0. now rewrite !lookup_insert_ne by congruence.
Qed.

(** C6.  When the fetch fails the callback records the failure as the
    error of the component, which renders as the error screen; the due
    list is left as it was, not emptied.  A fetch that finds no card due
    clears the error and renders as the "no cards due" screen: the two
    outcomes are different states with different screens. *)
Theorem fetch_failure_differs_from_nothing_due
    (answer : Fetched (list Card)) (e : string) (now : Z) (w : World) :
  FetchFailure answer e ->
  let failed := ui (snd (fetchVocabCards answer now w)) in
  error failed = Some ("Failed to fetch vocabulary: " +:+ e) /\
  vocabCards failed = vocabCards (ui w) /\
  render failed = ErrorView ("Failed to fetch vocabulary: " +:+ e) /\
  forall (answer' : Fetched (list Card)) (data : list Card) (now' : Z)
         (w' : World),
    Delivers answer' data -> dueCards now' data = [] ->
    let empty := ui (snd (fetchVocabCards answer' now' w')) in
    error empty = None /\
    render empty = NoCardsDueView /\
    render failed <> render empty.
Proof.
  intros Hfail. cbv zeta.
  rewrite (fetchVocabCards_failed answer e now w Hfail). cbn [snd ui].
  split; [reflexivity|]. split; [reflexivity|]. split; [reflexivity|].
  intros answer' data now' w' Hok Hnone.
  rewrite (fetchVocabCards_delivered answer' data now' w' Hok).
  cbn [snd ui]. rewrite Hnone.
  split; [reflexivity|]. split; [reflexivity|]. discriminate.
Qed.

(** C7, as the code has it.  The due queue is a function of the fetched
    array and of the time the clock reads when it arrives, and of nothing
    else: an instant passed to the callback plays no part.  On the store,
    selecting allocates one new array holding [dueCards now data] and
    leaves every other array, the fetched one included, as it was; every
    card of the queue is a card of the snapshot; and the state a successful
    fetch leaves behind is the same whatever the component held before. *)
Theorem due_queue_depends_on_snapshot_and_clock (data : list Card) (now : Z) :
  (forall (r : nat) (h : gmap nat (list Card)),
     h !! r = Some data ->
     exists r' h',
       dueCards_at now r h = Some (r', h') /\
       h' !! r' = Some (dueCards now data) /\
       h' !! r = Some data /\
       forall r0, r0 <> r' -> h' !! r0 = h !! r0) /\
  (forall c, In c (dueCards now data) -> In c data) /\
  (forall (argument1 argument2 : option Z) (answer : Fetched (list Card))
          (w1 w2 : World),
     Delivers answer data ->
     fst (callFetchVocabCards argument1 answer now w1) = Normal tt /\
     vocabCards (ui (snd (callFetchVocabCards argument1 answer now w1)))
     = dueCards now data /\
     ui (snd (callFetchVocabCards argument1 answer now w1))
     = ui (snd (callFetchVocabCards argument2 answer now w2))).
Proof.
  split; [intros r h; apply dueCards_at_spec|].
  split; [intros c Hc; now apply dueCards_In in Hc|].
  intros argument1 argument2 answer w1 w2 Hok.
  unfold callFetchVocabCards.
  rewrite !(fetchVocabCards_delivered answer data now _ Hok).
  repeat split.
Qed.

(** C8.  The due queue of the empty snapshot is empty at every instant,
    and a fetch that returns the empty array completes normally, with no
    error, on the "no cards due" screen. *)
Theorem empty_snapshot_is_nothing_due (now : Z)
    (answer : Fetched (list Card)) (w : World) :
  Delivers answer [] ->
  dueCards now [] = [] /\
  fetchVocabCards answer now w =
  (Normal tt,
   mkWorld (mkAppState [] 0 false None) (trace w ++ [Fetch getVocabs])) /\
  render (ui (snd (fetchVocabCards answer now w))) = NoCardsDueView.
Proof.
  intros Hok. rewrite (fetchVocabCards_delivered answer [] now w Hok).
  repeat split.
Qed.

(** C9.  A card whose [NextReviewTime] is not a date is due at no
    instant: it is in no due queue, and the fetch that brought it
    completes normally and leaves no error. *)
Theorem undated_card_is_never_due (c : Card) (now : Z) (data : list Card) :
  nextReview c = None ->
  isDue now c = false /\
  ~ In c (dueCards now data) /\
  forall (answer : Fetched (list Card)) (w : World),
    Delivers answer data ->
    fst (fetchVocabCards answer now w) = Normal tt /\
    error (ui (snd (fetchVocabCards answer now w))) = None.
Proof.
  intros Hnone.
  assert (Hdue : isDue now c = false)
    by (unfold isDue; now rewrite Hnone).
  split; [exact Hdue|]. split.
  - intros Hin. apply dueCards_In in Hin as [_ Hd].
    apply isDue_DueAt in Hd. congruence.
  - intros answer w Hok.
    rewrite (fetchVocabCards_delivered answer data now w Hok).
    split; reflexivity.
Qed.
End Loading.

(** C6, on a first fetch answered with status 500, against a fetch that
    returns one card due in an hour. *)
Lemma fetch_failure_differs_from_nothing_due_witness :
  let failed :=
    ui (snd (@fetchVocabCards sampleHost http500 nine
               (mkWorld initialState []))) in
  let empty :=
    ui (snd (@fetchVocabCards sampleHost (ok200 [cardB]) nine
               (mkWorld initialState []))) in
  render failed = ErrorView "Failed to fetch vocabulary: HTTP error! status: 500" /\
  render empty = NoCardsDueView /\
  render failed <> render empty.
Proof.
  pose proof (@fetch_failure_differs_from_nothing_due sampleHost
                http500 "HTTP error! status: 500" nine
                (mkWorld initialState [])
                (HttpFailure
                   (mkResponse false 500
                      (BodyRejected "Unexpected token < in JSON"))
                   eq_refl)) as (_ & _ & Hview & Hother).
  destruct (Hother (ok200 [cardB]) [cardB] nine (mkWorld initialState [])
              (Delivered (mkResponse true 200 (BodyJson [cardB])) [cardB]
                 eq_refl eq_refl)
              eq_refl) as (_ & Hempty & Hdiff).
  exact (conj Hview (conj Hempty Hdiff)).
Defined.

(** C7, on a store that holds the fetched array at reference 0. *)
Lemma due_queue_depends_on_snapshot_and_clock_witness :
  exists r' h',
    @dueCards_at sampleHost nine 0%nat {[ 0%nat := [cardC; cardB; cardA] ]}
    = Some (r', h') /\
    h' !! r' = Some [cardA; cardC] /\
    h' !! 0%nat = Some [cardC; cardB; cardA] /\
    forall r0, r0 <> r' ->
      h' !! r0 = ({[ 0%nat := [cardC; cardB; cardA] ]} : gmap nat (list Card)) !! r0.
Proof.
  exact (proj1 (@due_queue_depends_on_snapshot_and_clock sampleHost
                  [cardC; cardB; cardA] nine)
           0%nat {[ 0%nat := [cardC; cardB; cardA] ]}
           (lookup_singleton_eq 0%nat [cardC; cardB; cardA])).
Defined.

(** C7, as stated, fails: the reference instant is not a parameter.  With
    the clock at 09:00, a call that passes 08:00 on a snapshot holding one
    card due at 09:00 stores the queue of 09:00, which has the card, and
    not the queue of 08:00, which is empty. *)
Lemma supplied_instant_is_ignored :
  vocabCards
    (ui (snd (@callFetchVocabCards sampleHost (Some eight) (ok200 [cardC])
                nine (mkWorld initialState []))))
  <> @dueCards sampleHost (referenceInstant (Some eight) nine) [cardC].
Proof. vm_compute. discriminate. Qed.

(** C8, on the first fetch of a sheet with no rows. *)
Lemma empty_snapshot_is_nothing_due_witness :
  render (ui (snd (@fetchVocabCards sampleHost (ok200 []) nine
                     (mkWorld initialState []))))
  = NoCardsDueView.
Proof.
  exact (proj2 (proj2 (@empty_snapshot_is_nothing_due sampleHost nine
                         (ok200 []) (mkWorld initialState [])
                         (Delivered (mkResponse true 200 (BodyJson []))
                            [] eq_refl eq_refl)))).
Defined.

(** C9, on the card whose next review time reads "soon". *)
Lemma undated_card_is_never_due_witness :
  @nextReview sampleHost cardX = None /\
  ~ In cardX (@dueCards sampleHost nine [cardA; cardX; cardC]).
Proof.
  split; [reflexivity|].
  exact (proj1 (proj2 (@undated_card_is_never_due sampleHost cardX nine
                         [cardA; cardX; cardC] eq_refl))).
Defined.

(** * Further properties of the component *)

(** ** What each callback leaves behind *)

Section Outcomes.
Context `{DateHost}.

Lemma requestsOf_app (t1 t2 : list Effect) :
  requestsOf (t1 ++ t2) = requestsOf t1 ++ requestsOf t2.
Proof.
  induction t1 as [|[request|label e|text] t1 IH]; simpl;
    [reflexivity| |exact IH|exact IH].
  now rewrite IH.
Qed.

Lemma fetchVocabCards_completes (answer : Fetched (list Card)) (now : Z)
    (w : World) :
  fst (fetchVocabCards answer now w) = Normal tt.
Proof.
  destruct (FetchFailure_or_Delivers answer) as [[e He]|[data Hd]].
  - now rewrite (fetchVocabCards_failed answer e now w He).
  - now rewrite (fetchVocabCards_delivered answer data now w Hd).
Qed.

(** When ninety minutes from the submission is past what a [Date] can
    hold, [toISOString] throws at line 68: no request is sent, and the
    RangeError ends up in the error of the component. *)
Lemma updateCardState_out_of_range (cardId : string) (proficiencyLevel : Z)
    (env : Env) (w : World) :
  inDateRange (nextReviewTimeFrom (submitTime env)) = false ->
  updateCardState cardId proficiencyLevel env w =
  (Normal tt,
   mkWorld (mkAppState (vocabCards (ui w)) (currentCardIndex (ui w))
              (loading (ui w))
              (Some "Failed to update card: Invalid time value"))
           (trace w ++ [ConsoleError "Update error:" "Invalid time value"])).
Proof.
  intros Hrange.
  unfold updateCardState, try_catch, bind, toISOString, Date_ofTime, throw,
    setError, emit, modify.
  rewrite Hrange. reflexivity.
Qed.

Lemma updateCardState_saved (cardId : string) (proficiencyLevel : Z)
    (env : Env) (result : UpdateResult) (w : World) :
  inDateRange (nextReviewTimeFrom (submitTime env)) = true ->
  Delivers (updateAnswer env) result -> success result = true ->
  updateCardState cardId proficiencyLevel env w =
  fetchVocabCards (refetchAnswer env) (refetchTime env)
    (mkWorld (ui w)
       (trace w ++
        [Fetch (updateVocab cardId proficiencyLevel
                  (nextReviewTimeFrom (submitTime env)));
         ConsoleLog ("Card " +:+ cardId +:+ " updated successfully.")])).
Proof.
  intros Hrange Hd Hs.
  unfold updateCardState, try_catch, bind, fetch, checkOk, readJson, emit,
    ret, throw, toISOString, Date_ofTime.
  rewrite Hrange.
  inversion Hd as [r v Hok Hjson Hr]; subst v. simpl.
  rewrite Hok, Hjson. simpl. rewrite Hs. simpl. rewrite <- app_assoc. simpl.
  match goal with
  | |- context [fetchVocabCards ?a ?n ?w0] =>
      pose proof (fetchVocabCards_completes a n w0) as Hc;
      destruct (fetchVocabCards a n w0) as [[[]|e] w']
  end; [reflexivity|discriminate Hc].
Qed.

Lemma fetchVocabCards_requests (answer : Fetched (list Card)) (now : Z)
    (w : World) :
  requestsOf (trace (snd (fetchVocabCards answer now w)))
  = requestsOf (trace w) ++ [getVocabs].
Proof.
  destruct (FetchFailure_or_Delivers answer) as [[e He]|[data Hd]].
  - rewrite (fetchVocabCards_failed answer e now w He). cbn [snd trace].
    now rewrite requestsOf_app.
  - rewrite (fetchVocabCards_delivered answer data now w Hd). cbn [snd trace].
    now rewrite requestsOf_app.
Qed.

(** X1.  When the update is sent, the backend saves it and the fetch
    that follows delivers the sheet, the review ends with the due queue of
    the new sheet at the time it arrived on display, from its first card,
    with no error; the update, the log line and the fetch are all it
    did. *)
Theorem saved_review_shows_fresh_queue (cardId : string)
    (proficiencyLevel : Z) (env : Env) (result : UpdateResult)
    (data : list Card) (w : World) :
  inDateRange (nextReviewTimeFrom (submitTime env)) = true ->
  Delivers (updateAnswer env) result -> success result = true ->
  Delivers (refetchAnswer env) data ->
  updateCardState cardId proficiencyLevel env w =
  (Normal tt,
   mkWorld (mkAppState (dueCards (refetchTime env) data) 0 false None)
     (trace w ++
      [Fetch (updateVocab cardId proficiencyLevel
                (nextReviewTimeFrom (submitTime env)));
       ConsoleLog ("Card " +:+ cardId +:+ " updated successfully.");
       Fetch getVocabs])).
Proof.
  intros Hrange Hd Hs Hdata.
  rewrite (updateCardState_saved cardId proficiencyLevel env result w
             Hrange Hd Hs).
  rewrite (fetchVocabCards_delivered _ data _ _ Hdata).
  cbn [trace ui]. now rewrite <- app_assoc.
Qed.

(** X2.  When the update is sent and saved and the fetch that follows
    fails, the error the component keeps is the one of the fetch, "Failed
    to fetch vocabulary", not one of the update; the due list and the
    index stay as they were and the loading flag is cleared. *)
Theorem saved_review_with_failed_refetch (cardId : string)
    (proficiencyLevel : Z) (env : Env) (result : UpdateResult)
    (e : string) (w : World) :
  inDateRange (nextReviewTimeFrom (submitTime env)) = true ->
  Delivers (updateAnswer env) result -> success result = true ->
  FetchFailure (refetchAnswer env) e ->
  updateCardState cardId proficiencyLevel env w =
  (Normal tt,
   mkWorld (mkAppState (vocabCards (ui w)) (currentCardIndex (ui w)) false
              (Some ("Failed to fetch vocabulary: " +:+ e)))
     (trace w ++
      [Fetch (updateVocab cardId proficiencyLevel
                (nextReviewTimeFrom (submitTime env)));
       ConsoleLog ("Card " +:+ cardId +:+ " updated successfully.");
       Fetch getVocabs;
       ConsoleError "Fetch error:" e])).
Proof.
  intros Hrange Hd Hs Hfail.
  rewrite (updateCardState_saved cardId proficiencyLevel env result w
             Hrange Hd Hs).
  rewrite (fetchVocabCards_failed _ e _ _ Hfail).
  cbn [trace ui]. now rewrite <- app_assoc.
Qed.

(** X3.  Whatever the backend answers, [fetchVocabCards] does not throw,
    ends with the loading flag cleared, sends the one request [getVocabs],
    and leaves an error exactly when the sheet was not delivered. *)
Theorem fetch_always_settles (answer : Fetched (list Card)) (now : Z)
    (w : World) :
  fst (fetchVocabCards answer now w) = Normal tt /\
  loading (ui (snd (fetchVocabCards answer now w))) = false /\
  requestsOf (trace (snd (fetchVocabCards answer now w)))
  = requestsOf (trace w) ++ [getVocabs] /\
  (error (ui (snd (fetchVocabCards answer now w))) = None <->
   exists data, Delivers answer data).
Proof.
  destruct (FetchFailure_or_Delivers answer) as [[e He]|[data Hd]].
  - split; [apply fetchVocabCards_completes|].
    split; [|split; [apply fetchVocabCards_requests|]];
      rewrite (fetchVocabCards_failed answer e now w He); cbn [snd ui];
      [reflexivity|].
    split; [discriminate|].
    intros [data Hd]. now destruct (FetchFailure_not_Delivers answer e data).
  - split; [apply fetchVocabCards_completes|].
    split; [|split; [apply fetchVocabCards_requests|]];
      rewrite (fetchVocabCards_delivered answer data now w Hd); cbn [snd ui];
      [reflexivity|].
    split; [intros _; now exists data|reflexivity].
Qed.

(** X4.  [updateCardState] does not throw, whatever the clock reads and
    whatever the backend answers: every failure ends up in the error of
    the component.  When ninety minutes from the submission is past what
    a [Date] can hold it sends nothing and the error is the RangeError of
    [toISOString]; otherwise it sends the update once, and fetches the
    sheet again exactly when the update was saved. *)
Theorem update_always_settles (cardId : string) (proficiencyLevel : Z)
    (env : Env) (w : World) :
  fst (updateCardState cardId proficiencyLevel env w) = Normal tt /\
  (inDateRange (nextReviewTimeFrom (submitTime env)) = false ->
   requestsOf (trace (snd (updateCardState cardId proficiencyLevel env w)))
   = requestsOf (trace w) /\
   error (ui (snd (updateCardState cardId proficiencyLevel env w)))
   = Some "Failed to update card: Invalid time value") /\
  (inDateRange (nextReviewTimeFrom (submitTime env)) = true ->
   (exists e, PersistFailure (updateAnswer env) e) ->
   requestsOf (trace (snd (updateCardState cardId proficiencyLevel env w)))
   = requestsOf (trace w) ++
     [updateVocab cardId proficiencyLevel
        (nextReviewTimeFrom (submitTime env))]) /\
  (inDateRange (nextReviewTimeFrom (submitTime env)) = true ->
   (exists result,
      Delivers (updateAnswer env) result /\ success result = true) ->
   requestsOf (trace (snd (updateCardState cardId proficiencyLevel env w)))
   = requestsOf (trace w) ++
     [updateVocab cardId proficiencyLevel
        (nextReviewTimeFrom (submitTime env));
      getVocabs]).
Proof.
  split; [|split; [|split]].
  - destruct (inDateRange (nextReviewTimeFrom (submitTime env))) eqn:Hrange.
    + destruct (PersistFailure_or_saved (updateAnswer env))
        as [[e He]|(result & Hd & Hs)].
      * now rewrite (updateCardState_failed cardId proficiencyLevel env e w
                       Hrange He).
      * rewrite (updateCardState_saved cardId proficiencyLevel env result w
                   Hrange Hd Hs).
        apply fetchVocabCards_completes.
    + now rewrite (updateCardState_out_of_range cardId proficiencyLevel env w
                     Hrange).
  - intros Hrange.
    rewrite (updateCardState_out_of_range cardId proficiencyLevel env w
               Hrange).
    cbn [snd trace ui error]. rewrite requestsOf_app. cbn [requestsOf].
    now rewrite app_nil_r.
  - intros Hrange [e He].
    rewrite (updateCardState_failed cardId proficiencyLevel env e w
               Hrange He).
    cbn [snd trace]. now rewrite requestsOf_app.
  - intros Hrange (result & Hd & Hs).
    rewrite (updateCardState_saved cardId proficiencyLevel env result w
               Hrange Hd Hs).
    rewrite fetchVocabCards_requests. cbn [trace].
    rewrite requestsOf_app. cbn [requestsOf].
    now rewrite <- app_assoc.
Qed.
End Outcomes.

(** ** What the component keeps true *)

Section Invariant.
Context `{DateHost}.

Lemma levelsWritten_app (r1 r2 : list Request) :
  levelsWritten (r1 ++ r2) = levelsWritten r1 ++ levelsWritten r2.
Proof.
  induction r1 as [|[|id level t] r1 IH]; simpl; [reflexivity|exact IH|].
  now rewrite IH.
Qed.

Lemma dueCards_Dated (now : Z) (data : list Card) :
  Forall Dated (dueCards now data).
Proof.
  unfold dueCards. rewrite Array_sort_Permutation.
  apply dueCards_all_dated.
Qed.

Lemma newProficiency_range (p d : Z) : 1 <= newProficiency p d <= 5.
Proof. rewrite newProficiency_clamp. unfold clamp. lia. Qed.

Lemma WellKept_initial : WellKept (mkWorld initialState []).
Proof.
  repeat split; simpl; try constructor; try discriminate.
Qed.

Lemma WellKept_fetch (answer : Fetched (list Card)) (now : Z) (w : World) :
  WellKept w -> WellKept (snd (fetchVocabCards answer now w)).
Proof.
  intros (Hi & Hs & Hd & He & Hl).
  destruct (FetchFailure_or_Delivers answer) as [[e Hf]|[data Hok]].
  - rewrite (fetchVocabCards_failed answer e now w Hf).
    unfold WellKept; cbn [snd ui trace vocabCards currentCardIndex error].
    rewrite requestsOf_app, levelsWritten_app, app_nil_r.
    repeat split; try assumption. discriminate.
  - rewrite (fetchVocabCards_delivered answer data now w Hok).
    unfold WellKept; cbn [snd ui trace vocabCards currentCardIndex error].
    rewrite requestsOf_app, levelsWritten_app, app_nil_r.
    repeat split; try assumption; try discriminate.
    + apply dueCards_StronglySorted.
    + apply dueCards_Dated.
Qed.

Lemma WellKept_update (cardId : string) (p d : Z) (env : Env) (w : World) :
  WellKept w ->
  WellKept (snd (updateCardState cardId (newProficiency p d) env w)).
Proof.
  intros HW.
  destruct (inDateRange (nextReviewTimeFrom (submitTime env))) eqn:Hrange;
    [|rewrite (updateCardState_out_of_range cardId _ env w Hrange);
      destruct HW as (Hi & Hso & Hda & Her & Hl);
      unfold WellKept; cbn [snd ui trace vocabCards currentCardIndex error];
      rewrite requestsOf_app, levelsWritten_app, app_nil_r;
      repeat split; try assumption; discriminate].
  destruct (PersistFailure_or_saved (updateAnswer env))
    as [[e He]|(result & Hd & Hs)].
  - rewrite (updateCardState_failed cardId _ env e w Hrange He).
    destruct HW as (Hi & Hso & Hda & Her & Hl).
    unfold WellKept; cbn [snd ui trace vocabCards currentCardIndex error].
    rewrite requestsOf_app, levelsWritten_app.
    repeat split; try assumption; try discriminate.
    apply Forall_app. split; [assumption|].
    repeat constructor; apply newProficiency_range.
  - rewrite (updateCardState_saved cardId _ env result w Hrange Hd Hs).
    apply WellKept_fetch.
    destruct HW as (Hi & Hso & Hda & Her & Hl).
    unfold WellKept; cbn [snd ui trace vocabCards currentCardIndex error].
    rewrite requestsOf_app, levelsWritten_app.
    repeat split; try assumption.
    apply Forall_app. split; [assumption|].
    repeat constructor; apply newProficiency_range.
Qed.

(** With the index at the first card, the handler finds a card whenever
    the list is not empty. *)
Lemma handleNextCard_at_first (d : Z) (env : Env) (w : World) :
  currentCardIndex (ui w) = 0%nat ->
  handleNextCard d env w =
  match vocabCards (ui w) with
  | [] => (Normal tt, w)
  | currentCard :: _ =>
      updateCardState (ID currentCard)
        (newProficiency (ProficiencyLevel currentCard) d) env w
  end.
Proof.
  intros Hi. unfold handleNextCard, bind, getState. rewrite Hi.
  now destruct (vocabCards (ui w)).
Qed.

Lemma WellKept_run (c : Callback) (w : World) :
  WellKept w -> WellKept (snd (run c w)).
Proof.
  intros HW. destruct c as [answer now|d env]; cbn [run].
  - now apply WellKept_fetch.
  - rewrite (handleNextCard_at_first d env w (proj1 HW)).
    destruct (vocabCards (ui w)) as [|c0 cards]; [exact HW|].
    now apply WellKept_update.
Qed.

Lemma Reachable_WellKept (w : World) : Reachable w -> WellKept w.
Proof.
  intros [cs ->].
  assert (Hgen : forall w0, WellKept w0 -> WellKept (runAll cs w0)).
  { induction cs as [|c cs IH]; intros w0 HW; [exact HW|].
    cbn [runAll]. apply IH. now apply WellKept_run. }
  apply Hgen, WellKept_initial.
Qed.

Lemma run_completes (c : Callback) (w : World) :
  WellKept w -> fst (run c w) = Normal tt.
Proof.
  intros HW. destruct c as [answer now|d env]; cbn [run].
  - apply fetchVocabCards_completes.
  - rewrite (handleNextCard_at_first d env w (proj1 HW)).
    destruct (vocabCards (ui w)) as [|c0 cards]; [reflexivity|].
    destruct (inDateRange (nextReviewTimeFrom (submitTime env))) eqn:Hrange;
      [|now rewrite (updateCardState_out_of_range _ _ env w Hrange)].
    destruct (PersistFailure_or_saved (updateAnswer env))
      as [[e He]|(result & Hd & Hs)].
    + now rewrite (updateCardState_failed _ _ env e w Hrange He).
    + rewrite (updateCardState_saved _ _ env result w Hrange Hd Hs).
      apply fetchVocabCards_completes.
Qed.

(** X5.  In every world the component can reach, the index points at the
    first card and the due list is sorted by next review time, all of its
    cards dated. *)
Theorem reachable_queue_is_sorted (w : World) :
  Reachable w ->
  currentCardIndex (ui w) = 0%nat /\
  StronglySorted NotAfter (vocabCards (ui w)) /\
  Forall Dated (vocabCards (ui w)).
Proof.
  intros HR. destruct (Reachable_WellKept w HR) as (Hi & Hs & Hd & _).
  now repeat split.
Qed.

(** X6.  The component never writes a proficiency level outside 1-5 to
    the sheet, whatever integer levels the cards of the sheet carried and
    whatever integer the handler was passed. *)
Theorem reachable_levels_within_range (w : World) :
  Reachable w ->
  Forall (fun level => 1 <= level <= 5)
    (levelsWritten (requestsOf (trace w))).
Proof.
  intros HR. now destruct (Reachable_WellKept w HR) as (_ & _ & _ & _ & Hl).
Qed.

(** X7.  In a world the component can reach no callback throws: the
    handler never reads a card that is not there. *)
Theorem reachable_callbacks_never_throw (w : World) (c : Callback) :
  Reachable w -> fst (run c w) = Normal tt.
Proof.
  intros HR. apply run_completes. now apply Reachable_WellKept.
Qed.

(** X8.  When a reachable component shows the trainer, the card on
    display is there, it is the first of the due list, no card of the list
    is to be reviewed before it, and the count shown is the length of the
    list: the "No more cards for now!" branch is never taken. *)
Theorem reachable_trainer_shows_earliest (w : World)
    (shown : option Card) (cardsDue : nat) :
  Reachable w ->
  render (ui w) = TrainerView shown cardsDue ->
  exists currentCard rest,
    shown = Some currentCard /\
    vocabCards (ui w) = currentCard :: rest /\
    Forall (NotAfter currentCard) (currentCard :: rest) /\
    cardsDue = length (currentCard :: rest).
Proof.
  intros HR Hview.
  destruct (Reachable_WellKept w HR) as (Hi & Hs & Hd & _).
  unfold render, renderCards in Hview. rewrite Hi in Hview.
  destruct (loading (ui w)); [discriminate|].
  assert (Hcards :
    (if (length (vocabCards (ui w)) =? 0)%nat then NoCardsDueView
     else TrainerView (vocabCards (ui w) !! 0%nat)
            (length (vocabCards (ui w))))
    = TrainerView shown cardsDue).
  { destruct (error (ui w)) as [[|a e]|]; [exact Hview|discriminate|exact Hview]. }
  destruct (vocabCards (ui w)) as [|c0 rest]; [discriminate|].
  cbn in Hcards. injection Hcards as <- <-.
  exists c0, rest. repeat split.
  inversion Hs as [|? ? _ Hall]; subst.
  inversion Hd as [|? ? [t Ht] _]; subst.
  constructor; [|exact Hall].
  exists t, t. repeat split; try assumption. lia.
Qed.

(** X9.  In a reachable component that is not loading, an error is always
    shown: the error is never the empty string, which [if (error)] would
    take for no error. *)
Theorem reachable_error_is_shown (w : World) (e : string) :
  Reachable w ->
  loading (ui w) = false -> error (ui w) = Some e ->
  e <> EmptyString /\ render (ui w) = ErrorView e.
Proof.
  intros HR Hl He.
  destruct (Reachable_WellKept w HR) as (_ & _ & _ & Hne & _).
  unfold render. rewrite Hl, He.
  destruct e as [|a e]; [now rewrite He in Hne|].
  split; [discriminate|reflexivity].
Qed.
End Invariant.

(** ** More on the due queue *)

Section QueueFacts.
Context `{DateHost}.

Lemma reviewedAt_true (t : Z) (c : Card) :
  reviewedAt t c = true <-> nextReview c = Some t.
Proof.
  unfold reviewedAt. destruct (nextReview c) as [u|]; split.
  - intros Hu. apply Z.eqb_eq in Hu. now subst.
  - intros [= ->]. apply Z.eqb_refl.
  - discriminate.
  - discriminate.
Qed.

Lemma dueCards_reviewedAt (data : list Card) (now t : Z) :
  List.filter (reviewedAt t) (dueCards now data) =
  if t <=? now then List.filter (reviewedAt t) data else [].
Proof.
  unfold dueCards.
  rewrite Array_sort_stable by apply reviewedAt_tied.
  apply reviewedAt_due.
Qed.

Lemma filter_Forall_keeps {A : Type} (P : A -> Prop) (f : A -> bool)
    (l : list A) :
  Forall P l -> Forall P (List.filter f l).
Proof.
  intros Hl. apply List.Forall_forall. intros x Hx.
  apply filter_In in Hx as [Hx _].
  revert x Hx. now apply List.Forall_forall.
Qed.

Lemma filter_StronglySorted_keeps {A : Type} (R : A -> A -> Prop)
    (f : A -> bool) (l : list A) :
  StronglySorted R l -> StronglySorted R (List.filter f l).
Proof.
  induction 1 as [|x l Hs IH Hx]; simpl; [constructor|].
  destruct (f x); [|exact IH].
  constructor; [exact IH|]. now apply filter_Forall_keeps.
Qed.

(** A list sorted by next review time, all of its cards dated, is fixed
    by the order it gives to the cards of each instant. *)
Lemma sorted_stable_unique (l1 l2 : list Card) :
  Forall Dated l1 -> Forall Dated l2 ->
  StronglySorted NotAfter l1 -> StronglySorted NotAfter l2 ->
  (forall t, List.filter (reviewedAt t) l1 = List.filter (reviewedAt t) l2) ->
  l1 = l2.
Proof.
  revert l2. induction l1 as [|x l1 IH]; intros l2 Hd1 Hd2 Hs1 Hs2 Heq.
  - destruct l2 as [|y l2]; [reflexivity|].
    inversion Hd2 as [|? ? [ty Hy] _]; subst.
    specialize (Heq ty). cbn [List.filter] in Heq.
    rewrite (proj2 (reviewedAt_true ty y) Hy) in Heq. discriminate.
  - inversion Hd1 as [|? ? [tx Hx] Hd1']; subst.
    destruct l2 as [|y l2].
    { specialize (Heq tx). cbn [List.filter] in Heq.
      rewrite (proj2 (reviewedAt_true tx x) Hx) in Heq. discriminate. }
    inversion Hd2 as [|? ? [ty Hy] Hd2']; subst.
    inversion Hs1 as [|? ? Hs1' Hx1]; subst.
    inversion Hs2 as [|? ? Hs2' Hy2]; subst.
    assert (Hyx : ty <= tx).
    { assert (Hin : In x (y :: l2)).
      { assert (Hf : In x (List.filter (reviewedAt tx) (y :: l2))).
        { rewrite <- Heq. cbn [List.filter].
          rewrite (proj2 (reviewedAt_true tx x) Hx). now left. }
        now apply filter_In in Hf as [Hf _]. }
      destruct Hin as [->|Hin]; [rewrite Hx in Hy; injection Hy; lia|].
      rewrite List.Forall_forall in Hy2.
      destruct (Hy2 x Hin) as (a & b & Ha & Hb & Hab).
      rewrite Hy in Ha. rewrite Hx in Hb.
      injection Ha as <-. injection Hb as <-. exact Hab. }
    assert (Hxy : tx <= ty).
    { assert (Hin : In y (x :: l1)).
      { assert (Hf : In y (List.filter (reviewedAt ty) (x :: l1))).
        { rewrite Heq. cbn [List.filter].
          rewrite (proj2 (reviewedAt_true ty y) Hy). now left. }
        now apply filter_In in Hf as [Hf _]. }
      destruct Hin as [->|Hin]; [rewrite Hx in Hy; injection Hy; lia|].
      rewrite List.Forall_forall in Hx1.
      destruct (Hx1 y Hin) as (a & b & Ha & Hb & Hab).
      rewrite Hx in Ha. rewrite Hy in Hb.
      injection Ha as <-. injection Hb as <-. exact Hab. }
    assert (ty = tx) by lia. subst ty.
    pose proof (Heq tx) as Hhead. cbn [List.filter] in Hhead.
    rewrite (proj2 (reviewedAt_true tx x) Hx) in Hhead.
    rewrite (proj2 (reviewedAt_true tx y) Hy) in Hhead.
    injection Hhead as -> Htail.
    f_equal. apply IH; try assumption.
    intros t. destruct (Z.eq_dec t tx) as [->|Hne]; [exact Htail|].
    specialize (Heq t). cbn [List.filter] in Heq.
    assert (Hno : reviewedAt t y = false).
    { destruct (reviewedAt t y) eqn:Hr; [|reflexivity].
      apply reviewedAt_true in Hr. congruence. }
    now rewrite Hno in Heq.
Qed.

(** In a sorted list of dated cards the cards due at [now] come first. *)
Lemma sorted_due_first (now : Z) (l : list Card) :
  Forall Dated l -> StronglySorted NotAfter l ->
  l = List.filter (isDue now) l
      ++ List.filter (fun c => negb (isDue now c)) l.
Proof.
  intros Hd Hs. induction Hs as [|x l Hs IH Hx]; [reflexivity|].
  inversion Hd as [|? ? [tx Htx] Hd']; subst.
  cbn [List.filter]. destruct (isDue now x) eqn:Hdue; cbn [negb].
  - cbn [app]. f_equal. now apply IH.
  - assert (Hnone : forall c, In c l -> isDue now c = false).
    { intros c Hc. rewrite List.Forall_forall in Hx.
      destruct (Hx c Hc) as (a & b & Ha & Hb & Hab).
      unfold isDue, Date_le in *. rewrite Htx in Hdue. rewrite Hb.
      rewrite Htx in Ha. injection Ha as <-.
      apply Z.leb_gt in Hdue. apply Z.leb_gt. lia. }
    assert (Hl : List.filter (isDue now) l = []
                 /\ List.filter (fun c => negb (isDue now c)) l = l).
    { clear - Hnone. induction l as [|c l IHl]; [now split|].
      cbn [List.filter]. rewrite (Hnone c (or_introl eq_refl)). cbn [negb].
      destruct IHl as [-> ->]; [|now split].
      intros c' Hc'. apply Hnone. now right. }
    destruct Hl as [-> ->]. reflexivity.
Qed.

(** X10.  The due queue does not depend on how the engine sorts: any
    list of dated cards that is sorted by next review time and has, at
    every instant, the due cards of the snapshot in the order of the
    snapshot is the due queue. *)
Theorem due_queue_is_the_only_stable_order (data q : list Card) (now : Z) :
  Forall Dated q ->
  StronglySorted NotAfter q ->
  (forall t,
     List.filter (reviewedAt t) q =
     if t <=? now then List.filter (reviewedAt t) data else []) ->
  q = dueCards now data.
Proof.
  intros Hd Hs Hq.
  apply sorted_stable_unique; try assumption.
  - unfold dueCards. rewrite Array_sort_Permutation.
    apply dueCards_all_dated.
  - apply dueCards_StronglySorted.
  - intros t. now rewrite Hq, dueCards_reviewedAt.
Qed.

(** X11.  As time passes the due queue only grows at its end: the queue
    at a later instant starts with the queue at the earlier one, in the
    same order, followed by cards that were not yet due. *)
Theorem due_queue_grows_at_the_end (data : list Card) (now now' : Z) :
  now <= now' ->
  exists later,
    dueCards now' data = dueCards now data ++ later /\
    Forall (fun c => ~ DueAt now c) later.
Proof.
  intros Hle.
  exists (List.filter (fun c => negb (isDue now c)) (dueCards now' data)).
  split.
  - assert (Hd' : Forall Dated (dueCards now' data)).
    { unfold dueCards. rewrite Array_sort_Permutation.
      apply dueCards_all_dated. }
    rewrite (sorted_due_first now (dueCards now' data) Hd'
               (dueCards_StronglySorted now' data)) at 1.
    f_equal.
    apply sorted_stable_unique.
    + now apply filter_Forall_keeps.
    + unfold dueCards at 1. rewrite Array_sort_Permutation.
      apply dueCards_all_dated.
    + apply filter_StronglySorted_keeps, dueCards_StronglySorted.
    + apply dueCards_StronglySorted.
    + intros t. rewrite reviewedAt_due, !dueCards_reviewedAt.
      destruct (Z.leb_spec t now); [|reflexivity].
      destruct (Z.leb_spec t now'); [reflexivity|lia].
  - apply List.Forall_forall. intros c Hc.
    apply filter_In in Hc as [_ Hc]. rewrite <- isDue_DueAt.
    destruct (isDue now c); [discriminate|congruence].
Qed.

(** X12.  A review that was sent and saved takes the card off the list
    for ninety minutes: if the sheet that comes back holds the card with
    the next review time the review wrote, and comes back within ninety
    minutes of the review, the card is not in the due list the review
    leaves. *)
Theorem reviewed_card_leaves_the_queue (cardId : string)
    (proficiencyLevel : Z) (env : Env) (result : UpdateResult)
    (data : list Card) (w : World) (c : Card) :
  inDateRange (nextReviewTimeFrom (submitTime env)) = true ->
  Delivers (updateAnswer env) result -> success result = true ->
  Delivers (refetchAnswer env) data ->
  nextReview c = Some (nextReviewTimeFrom (submitTime env)) ->
  refetchTime env < submitTime env + minutes 90 ->
  ~ In c (vocabCards
            (ui (snd (updateCardState cardId proficiencyLevel env w)))).
Proof.
  intros Hrange Hd Hs Hdata Hc Hsoon.
  rewrite (updateCardState_saved cardId proficiencyLevel env result w
             Hrange Hd Hs).
  rewrite (fetchVocabCards_delivered _ data _ _ Hdata).
  cbn [snd ui vocabCards]. intros Hin.
  apply dueCards_In in Hin as [_ (t & Ht & Hle)].
  rewrite Hc in Ht. injection Ht as <-.
  unfold nextReviewTimeFrom, minutes in *. lia.
Qed.

(** X13.  On a level within 1-5 the three buttons do what they say:
    "difficult" takes one off, except at 1; "again" keeps the level;
    "easy" adds one, except at 5. *)
Theorem buttons_move_level_by_one (p : Z) :
  1 <= p <= 5 ->
  newProficiency p (-1) = (if p =? 1 then 1 else p - 1) /\
  newProficiency p 0 = p /\
  newProficiency p 1 = (if p =? 5 then 5 else p + 1).
Proof.
  intros Hp. rewrite !newProficiency_clamp. unfold clamp.
  destruct (Z.eqb_spec p 1); destruct (Z.eqb_spec p 5); lia.
Qed.
End QueueFacts.

(** ** The card that flips *)

Lemma clicked_odd (n : nat) : clicked n = Nat.odd n.
Proof.
  induction n as [|n IH]; [reflexivity|].
  cbn [clicked]. unfold flipCard. rewrite IH.
  now rewrite Nat.odd_succ, Nat.negb_odd.
Qed.

(** X14.  A flashcard starts on its English side and every click turns
    it over: after [n] clicks it shows the Cantonese word with its
    romanisation when [n] is odd and the English word when [n] is even,
    and the level in the corner is the one it was given either way. *)
Theorem flashcard_side_after_clicks (props : FlashcardProps) (n : nat) :
  Flashcard props (clicked n) =
  mkFlashcardView (proficiency props)
    (if Nat.odd n
     then CantoneseFace (cantonese props) (jyutping props)
     else EnglishFace (english props)).
Proof. unfold Flashcard. now rewrite clicked_odd. Qed.

(** ** The further properties on sample data *)

(** X1, on a review of [cardA] at 09:00 after which the sheet comes back
    with one card due. *)
Lemma saved_review_shows_fresh_queue_witness :
  @updateCardState sampleHost "A" 4 (savedEnv nine [cardB; cardC])
    (mkWorld (readyState [cardA]) [])
  = (Normal tt,
     mkWorld (mkAppState [cardC] 0 false None)
       [Fetch (updateVocab "A" 4 (nine + minutes 90));
        ConsoleLog "Card A updated successfully.";
        Fetch getVocabs]).
Proof.
  exact (@saved_review_shows_fresh_queue sampleHost "A" 4
           (savedEnv nine [cardB; cardC]) saved [cardB; cardC]
           (mkWorld (readyState [cardA]) [])
           eq_refl
           (Delivered (mkResponse true 200 (BodyJson saved)) saved
              eq_refl eq_refl)
           eq_refl
           (Delivered (mkResponse true 200 (BodyJson [cardB; cardC]))
              [cardB; cardC] eq_refl eq_refl)).
Defined.

(** X2, on a review of [cardA] that is saved and whose fetch is answered
    with status 500. *)
Lemma saved_review_with_failed_refetch_witness :
  ui (snd (@updateCardState sampleHost "A" 4 (lostEnv nine)
             (mkWorld (readyState [cardA]) [])))
  = mkAppState [cardA] 0 false
      (Some "Failed to fetch vocabulary: HTTP error! status: 500").
Proof.
  exact (f_equal (fun r => ui (snd r))
           (@saved_review_with_failed_refetch sampleHost "A" 4
              (lostEnv nine) saved "HTTP error! status: 500"
              (mkWorld (readyState [cardA]) [])
              eq_refl
              (Delivered (mkResponse true 200 (BodyJson saved)) saved
                 eq_refl eq_refl)
              eq_refl
              (HttpFailure
                 (mkResponse false 500
                    (BodyRejected "Unexpected token < in JSON"))
                 eq_refl))).
Defined.

(** X4, on the same saved review, the update then the fetch, and on a
    review in the last second a [Date] can hold, which sends nothing. *)
Lemma update_always_settles_witness :
  requestsOf
    (trace (snd (@updateCardState sampleHost "A" 4 (lostEnv nine)
                   (mkWorld (readyState [cardA]) []))))
  = [updateVocab "A" 4 (nine + minutes 90); getVocabs] /\
  (requestsOf
     (trace (snd (@updateCardState sampleHost "A" 4 (lostEnv lastSecond)
                    (mkWorld (readyState [cardA]) []))))
   = [] /\
   error (ui (snd (@updateCardState sampleHost "A" 4 (lostEnv lastSecond)
                     (mkWorld (readyState [cardA]) []))))
   = Some "Failed to update card: Invalid time value").
Proof.
  split.
  - exact (proj2 (proj2 (proj2 (@update_always_settles sampleHost "A" 4
                                  (lostEnv nine)
                                  (mkWorld (readyState [cardA]) []))))
             eq_refl
             (ex_intro _ saved
                (conj (Delivered (mkResponse true 200 (BodyJson saved)) saved
                         eq_refl eq_refl)
                      eq_refl))).
  - exact (proj1 (proj2 (@update_always_settles sampleHost "A" 4
                           (lostEnv lastSecond)
                           (mkWorld (readyState [cardA]) [])))
             eq_refl).
Defined.

(** X5, on the component that has fetched three cards. *)
Lemma reachable_queue_is_sorted_witness :
  currentCardIndex (ui mountedWorld) = 0%nat /\
  StronglySorted (@NotAfter sampleHost) (vocabCards (ui mountedWorld)) /\
  Forall (@Dated sampleHost) (vocabCards (ui mountedWorld)).
Proof.
  exact (@reachable_queue_is_sorted sampleHost mountedWorld
           (ex_intro _ [Mounted (ok200 [cardC; cardA; cardB]) nine]
              eq_refl)).
Defined.

(** X6, on the component that fetches [cardA], at level 3, at 10:00, has
    it marked easy, which is saved and brings back [cardB], at level 5 and
    due at 10:00, and has that marked easy, which is not saved: the levels
    written are 4 and 5. *)
Lemma reachable_levels_within_range_witness :
  levelsWritten
    (requestsOf
       (trace (@runAll sampleHost
                 [Mounted (ok200 [cardA]) ten;
                  Marked 1 (savedEnv ten [cardB]);
                  Marked 1 (failingEnv (ten + minutes 1))]
                 (mkWorld initialState []))))
  = [4; 5] /\
  Forall (fun level => 1 <= level <= 5)
    (levelsWritten
       (requestsOf
          (trace (@runAll sampleHost
                    [Mounted (ok200 [cardA]) ten;
                     Marked 1 (savedEnv ten [cardB]);
                     Marked 1 (failingEnv (ten + minutes 1))]
                    (mkWorld initialState []))))).
Proof.
  split; [reflexivity|].
  exact (@reachable_levels_within_range sampleHost _
           (ex_intro _ [Mounted (ok200 [cardA]) ten;
                        Marked 1 (savedEnv ten [cardB]);
                        Marked 1 (failingEnv (ten + minutes 1))]
              eq_refl)).
Defined.

(** X7, on a press of "easy" in the component that has fetched three
    cards. *)
Lemma reachable_callbacks_never_throw_witness :
  fst (@run sampleHost (Marked 1 (failingEnv nine)) mountedWorld)
  = Normal tt.
Proof.
  exact (@reachable_callbacks_never_throw sampleHost mountedWorld
           (Marked 1 (failingEnv nine))
           (ex_intro _ [Mounted (ok200 [cardC; cardA; cardB]) nine]
              eq_refl)).
Defined.

(** X8, on the component that has fetched three cards, two of them due. *)
Lemma reachable_trainer_shows_earliest_witness :
  exists currentCard rest,
    Some cardA = Some currentCard /\
    vocabCards (ui mountedWorld) = currentCard :: rest /\
    Forall (@NotAfter sampleHost currentCard) (currentCard :: rest) /\
    2%nat = length (currentCard :: rest).
Proof.
  exact (@reachable_trainer_shows_earliest sampleHost mountedWorld
           (Some cardA) 2%nat
           (ex_intro _ [Mounted (ok200 [cardC; cardA; cardB]) nine]
              eq_refl)
           eq_refl).
Defined.

(** X9, on the component whose first fetch has failed. *)
Lemma reachable_error_is_shown_witness :
  "Failed to fetch vocabulary: HTTP error! status: 500" <> EmptyString /\
  render (ui failedWorld)
  = ErrorView "Failed to fetch vocabulary: HTTP error! status: 500".
Proof.
  exact (@reachable_error_is_shown sampleHost failedWorld
           "Failed to fetch vocabulary: HTTP error! status: 500"
           (ex_intro _ [Mounted http500 nine] eq_refl)
           eq_refl eq_refl).
Defined.

(** X10, on a snapshot of two due cards out of order. *)
Lemma due_queue_is_the_only_stable_order_witness :
  [cardA; cardC] = @dueCards sampleHost nine [cardC; cardA].
Proof.
  apply (@due_queue_is_the_only_stable_order sampleHost
           [cardC; cardA] [cardA; cardC] nine).
  - repeat constructor; eexists; reflexivity.
  - repeat constructor; exists eight, nine;
      (split; [reflexivity|]); (split; [reflexivity|]);
      unfold eight, nine; lia.
  - intros t.
    assert (HA : @reviewedAt sampleHost t cardA = (eight =? t))
      by reflexivity.
    assert (HC : @reviewedAt sampleHost t cardC = (nine =? t))
      by reflexivity.
    cbn [List.filter]. rewrite HA, HC.
    destruct (Z.eqb_spec eight t) as [Ha|Ha];
      destruct (Z.eqb_spec nine t) as [Hc|Hc];
      destruct (Z.leb_spec t nine) as [Hle|Hgt];
      try reflexivity; unfold eight, nine in *; lia.
Defined.

(** X11, between 08:00 and 09:00 on a snapshot of three cards. *)
Lemma due_queue_grows_at_the_end_witness :
  exists later,
    @dueCards sampleHost nine [cardB; cardC; cardA]
    = @dueCards sampleHost eight [cardB; cardC; cardA] ++ later /\
    Forall (fun c => ~ @DueAt sampleHost eight c) later.
Proof.
  apply (@due_queue_grows_at_the_end sampleHost [cardB; cardC; cardA]
           eight nine).
  unfold eight, nine. lia.
Defined.

(** X12, on a review of [cardB] at 08:30, which writes 10:00, with the
    sheet back a second later. *)
Lemma reviewed_card_leaves_the_queue_witness :
  ~ In cardB
      (vocabCards
         (ui (snd (@updateCardState sampleHost "B" 5
                     (savedEnv halfPastEight [cardB; cardA])
                     (mkWorld (readyState [cardA]) []))))).
Proof.
  apply (@reviewed_card_leaves_the_queue sampleHost "B" 5
           (savedEnv halfPastEight [cardB; cardA]) saved [cardB; cardA]
           (mkWorld (readyState [cardA]) []) cardB
           eq_refl
           (Delivered (mkResponse true 200 (BodyJson saved)) saved
              eq_refl eq_refl)
           eq_refl
           (Delivered (mkResponse true 200 (BodyJson [cardB; cardA]))
              [cardB; cardA] eq_refl eq_refl)
           eq_refl).
  unfold savedEnv, halfPastEight, minutes. cbn [refetchTime submitTime]. lia.
Defined.

(** X13, on a card at the top level. *)
Lemma buttons_move_level_by_one_witness :
  newProficiency 5 (-1) = 4 /\
  newProficiency 5 0 = 5 /\
  newProficiency 5 1 = 5.
Proof.
  apply (buttons_move_level_by_one 5). lia.
Defined.
